(** * images-api: the metadata loader [scripts/load_content.py]

    A shallow embedding of the loader: the single-file extractor
    [process_file] with its probes, the backlog enumeration [gather_files],
    the result-consumption loop of [main] with its batch buffer, counters and
    store, and the termination-signal handler.

    Conventions of the embedding.
    - Python exceptions are values of [exception] (instances of Python's
      [Exception]) or of [base_exception] (which adds [KeyboardInterrupt] and
      [SystemExit]); [except Exception] catches the former only.
    - Mutable locals and the outside world are threaded as explicit state; a
      raised exception keeps the state reached so far, as in Python.
    - [time.time()] reads an integer clock; float seconds are clock ticks.
      The derived float rates of the progress lines are not represented.
    - The file system, the probes, the store client and its calls, the
      start of the pool, the writes to stdout and a worker's writes to
      stderr can fail. The coordinator's own writes to stderr are taken to
      succeed.
    - The process ends with the status the interpreter gives it: that of
      the [SystemExit] or uncaught exception that leaves [main], or 120
      when it cannot flush stdout on its way out. *)

From Stdlib Require Import ZArith List String Ascii Bool Lia Permutation.
Import ListNotations.
Local Open Scope string_scope.
Local Open Scope Z_scope.

(** ** Strings and paths

    A [str] is held as the UTF-8 encoding of its code points, one [ascii]
    per byte. The ASCII characters the program looks for (['/'], ['.'],
    ['='], the line feed) are bytes that occur in no other character's
    encoding, so searching and splitting on them is the same on the bytes;
    only [strip], which removes characters outside ASCII too, has to know
    the encoding. *)

Module Str.

Definition sep : ascii := "/"%char.

(** [s.startswith(p)] *)
Definition startswith (s p : string) : bool := String.prefix p s.

Fixpoint contains_char (c : ascii) (s : string) : bool :=
  match s with
  | EmptyString => false
  | String d s' => Ascii.eqb c d || contains_char c s'
  end.

(** [s.endswith('/')] *)
Fixpoint endswith_sep (s : string) : bool :=
  match s with
  | EmptyString => false
  | String c EmptyString => Ascii.eqb c sep
  | String _ s' => endswith_sep s'
  end.

(** [s.split('\n')] *)
Fixpoint split_lines (s : string) : list string :=
  match s with
  | EmptyString => [EmptyString]
  | String c s' =>
      if Ascii.eqb c "010"%char then EmptyString :: split_lines s'
      else match split_lines s' with
           | h :: t => String c h :: t
           | [] => [String c EmptyString]
           end
  end.

(** [line.split('=', 1)] on a line that contains ['=']; [None] when it does
    not. *)
Fixpoint split_eq (s : string) : option (string * string) :=
  match s with
  | EmptyString => None
  | String c s' =>
      if Ascii.eqb c "="%char then Some (EmptyString, s')
      else match split_eq s' with
           | Some (k, v) => Some (String c k, v)
           | None => None
           end
  end.

(** The string of the given bytes. *)
Definition bytes (l : list nat) : string :=
  string_of_list_ascii (map ascii_of_nat l).

(** The characters [c] with [c.isspace()], which [str.strip()] removes, each
    in its UTF-8 encoding: U+0009 to U+000D, U+001C to U+001F, U+0020,
    U+0085, U+00A0, U+1680, U+2000 to U+200A, U+2028, U+2029, U+202F,
    U+205F and U+3000. *)
Definition spaces : list string :=
  map bytes
    [[9]; [10]; [11]; [12]; [13]; [28]; [29]; [30]; [31]; [32];
     [194; 133]; [194; 160]; [225; 154; 128];
     [226; 128; 128]; [226; 128; 129]; [226; 128; 130]; [226; 128; 131];
     [226; 128; 132]; [226; 128; 133]; [226; 128; 134]; [226; 128; 135];
     [226; 128; 136]; [226; 128; 137]; [226; 128; 138];
     [226; 128; 168]; [226; 128; 169]; [226; 128; 175];
     [226; 129; 159]; [227; 128; 128]]%nat.

(** [c.isspace()] for one character [c], given by its encoding. *)
Definition isspace (c : string) : bool := existsb (String.eqb c) spaces.

(** [s.lstrip()] *)
Fixpoint lstrip (s : string) : string :=
  match s with
  | EmptyString => s
  | String a s1 =>
      if isspace (String a EmptyString) then lstrip s1
      else
        match s1 with
        | EmptyString => s
        | String b s2 =>
            if isspace (String a (String b EmptyString)) then lstrip s2
            else
              match s2 with
              | EmptyString => s
              | String c s3 =>
                  if isspace (String a (String b (String c EmptyString)))
                  then lstrip s3
                  else s
              end
        end
  end.

(** [s.rstrip()]: the white space at the end goes, character by
    character from the right. *)
Fixpoint rstrip (s : string) : string :=
  match s with
  | EmptyString => EmptyString
  | String c s' =>
      let r := rstrip s' in
      if isspace (String c r) then EmptyString else String c r
  end.

(** [s.strip()] *)
Definition strip (s : string) : string := rstrip (lstrip s).

End Str.

Module Path.

(** [os.path.basename(p)]: what follows the last ['/']. *)
Fixpoint basename (p : string) : string :=
  match p with
  | EmptyString => EmptyString
  | String c p' =>
      if Str.contains_char Str.sep p' then basename p'
      else if Ascii.eqb c Str.sep then p' else p
  end.

(** [os.path.join(a, b)] of [posixpath]. *)
Definition join (a b : string) : string :=
  if Str.startswith b "/" then b
  else match a with
       | EmptyString => b
       | _ => if Str.endswith_sep a then a ++ b else a ++ String Str.sep b
       end.

End Path.

(** ** The file tree and [gather_files] *)

(** What [os.walk] sees below a directory: plain entries and directories
    with their own entries, in listing order. *)
#[warnings="-register-all"]
Inductive entry : Type :=
| File (name : string)
| Dir (name : string) (entries : list entry).

Definition dirnames (es : list entry) : list string :=
  flat_map (fun e => match e with Dir n _ => [n] | File _ => [] end) es.

Definition filenames (es : list entry) : list string :=
  flat_map (fun e => match e with File n => [n] | Dir _ _ => [] end) es.

(** [os.walk(top)], top-down, where [e] is what lies at [top]: the triple
    of [top], then the walk of each sub-directory in order. No directory is
    pruned; walking something that is not a directory yields nothing. *)
Fixpoint walk (top : string) (e : entry) {struct e}
  : list (string * list string * list string) :=
  match e with
  | File _ => []
  | Dir _ es =>
      (top, dirnames es, filenames es) ::
      flat_map
        (fun c => match c with
                  | Dir n _ => walk (Path.join top n) c
                  | File _ => []
                  end) es
  end.

(** The list [gather_files(directory)] returns, where [fs] is what lies at
    [directory]. Of the two lines it prints to stdout, [main] below has
    what becomes of the writes ([h_gathering], [h_found]). *)
Definition gather_files (directory : string) (fs : entry) : list string :=
  flat_map
    (fun '(root, _, files) =>
       flat_map
         (fun file =>
            if negb (Str.startswith file ".") then [Path.join root file] else [])
         files)
    (walk directory fs).

(** ** Python values, dictionaries and exceptions *)

#[warnings="-register-all"]
Inductive pyval : Type :=
| PNone
| PBool (b : bool)
| PInt (n : Z)
| PSec (ticks : Z)                       (* float seconds *)
| PStr (s : string)
| PList (l : list pyval)
| PDict (d : list (string * pyval)).

(** A [dict] with string keys, in insertion order. *)
Definition dict_of (V : Type) : Type := list (string * V).
Definition dict : Type := dict_of pyval.

Fixpoint dict_get {V} (k : string) (d : dict_of V) : option V :=
  match d with
  | [] => None
  | (k', v) :: d' => if String.eqb k k' then Some v else dict_get k d'
  end.

(** [d[k] = v]: an existing key keeps its place. *)
Fixpoint dict_set {V} (k : string) (v : V) (d : dict_of V) : dict_of V :=
  match d with
  | [] => [(k, v)]
  | (k', v') :: d' =>
      if String.eqb k k' then (k, v) :: d' else (k', v') :: dict_set k v d'
  end.

(** [d.update(kvs)] *)
Definition dict_update {V} (d : dict_of V) (kvs : dict_of V) : dict_of V :=
  fold_left (fun acc kv => dict_set (fst kv) (snd kv) acc) kvs d.

(** Instances of Python's [Exception]. *)
Inductive exception : Type :=
| OSError (msg : string)
| BrokenPipeError
| ValueError (msg : string)
| KeyError (key : string)
| TypeError (msg : string)
| IndexError
| ZeroDivisionError
| PyMongoError (msg : string).

(** Everything that can be raised: [KeyboardInterrupt] and [SystemExit] are
    not instances of [Exception]. *)
Inductive base_exception : Type :=
| Exc (e : exception)
| KeyboardInterrupt
| SystemExit (code : Z).

Inductive result (A : Type) : Type :=
| Ok (a : A)
| Raise (e : exception).
Arguments Ok {A} a.
Arguments Raise {A} e.

(** ** Stateful computations that can raise

    [M S A] runs on a state [S] and ends with a value or an exception; the
    state reached is kept either way. *)

Definition M (S A : Type) : Type := S -> result A * S.

Definition ret {S A} (a : A) : M S A := fun s => (Ok a, s).

Definition bind {S A B} (m : M S A) (k : A -> M S B) : M S B :=
  fun s => match m s with
           | (Ok a, s') => k a s'
           | (Raise e, s') => (Raise e, s')
           end.

Definition raise {S A} (e : exception) : M S A := fun s => (Raise e, s).

(** [try: m  except Exception as e: h e] *)
Definition try_except {S A} (m : M S A) (h : exception -> M S A) : M S A :=
  fun s => match m s with
           | (Ok a, s') => (Ok a, s')
           | (Raise e, s') => h e s'
           end.

Definition get {S} : M S S := fun s => (Ok s, s).
Definition modify {S} (f : S -> S) : M S unit := fun s => (Ok tt, f s).
Definition lift {S A} (r : result A) : M S A := fun s => (r, s).

Declare Scope py_scope.
Delimit Scope py_scope with py.
Notation "x <- c ;; k" := (bind c (fun x => k))
  (at level 61, c at next level, right associativity) : py_scope.
Notation "' pat <- c ;; k" := (bind c (fun x => match x with pat => k end))
  (at level 61, pat pattern, c at next level, right associativity) : py_scope.
Notation "c ;; k" := (bind c (fun _ => k))
  (at level 61, right associativity) : py_scope.
Local Open Scope py_scope.

(** ** Diagnostic lines (stderr) *)

Inductive diag : Type :=
| SkippingHidden (file_path : string)
| NoContentType (file_path : string)
| BaseMetadataError (file_path : string) (e : exception)
| VideoMetadataError (file_path : string) (e : exception)
| ImageMetadataError (file_path : string) (e : exception)
| ProcessFailed (file_path : string) (e : exception)
| SignalReceived
| NotADirectory (root_dir : string)
| Truncating
| SkippingTruncation
| PipeBroken
| ResultError (e : exception)
| InsertFailed (e : exception)
| FinalInsertFailed (e : exception)
| InterruptReceived
| MainLoopError (e : exception)
| FinalResults (total_files successful failed : Z)
| DocumentsInDb (in_db : Z).

(** ** The extractor: probes and [process_file] *)

Record stat_result : Type := {
  st_size : Z;
  st_ctime : Z;
  st_mtime : Z;
  st_atime : Z
}.

Record CompletedProcess : Type := {
  returncode : Z;
  stdout_text : string
}.

(** What a worker meets outside the program: the content-type table of
    [mimetypes], the file system, the external tools behind
    [subprocess.run], the JSON decoder, how long each call takes, and what
    becomes of a line it prints to stderr. *)
Record world : Type := {
  w_guess_type : string -> result (option string);
  w_stat : string -> result stat_result;
  w_run : list string -> result CompletedProcess;
  w_json_loads : string -> result pyval;
  w_stat_ticks : string -> Z;
  w_run_ticks : list string -> Z;
  w_stderr : diag -> result unit
}.

(** A worker's state: the wall clock, the two dictionaries [process_file]
    fills in, and the diagnostic lines written. *)
Record frame : Type := {
  clock : Z;
  doc : dict;
  timings : dict_of Z;
  err : list diag
}.

Definition W (A : Type) : Type := M frame A.

Definition time_time : W Z := fun s => (Ok (clock s), s).

Definition tick (t : Z) (s : frame) : frame :=
  {| clock := clock s + t; doc := doc s; timings := timings s; err := err s |}.

(** The call in progress takes [t] ticks. *)
Definition sleep (t : Z) : W unit := modify (tick t).

Definition set_doc (d : dict) : W unit :=
  modify (fun s => {| clock := clock s; doc := d;
                      timings := timings s; err := err s |}).

Definition set_timings (t : dict_of Z) : W unit :=
  modify (fun s => {| clock := clock s; doc := doc s;
                      timings := t; err := err s |}).

Definition doc_set (k : string) (v : pyval) : W unit :=
  s <- get ;; set_doc (dict_set k v (doc s)).

Definition timings_set (k : string) (v : Z) : W unit :=
  s <- get ;; set_timings (dict_set k v (timings s)).

Section Extractor.

Variable w : world.

(** [print(..., file=sys.stderr, flush=True)] in a worker: the line is
    written, or the write raises. *)
Definition eprint (d : diag) : W unit :=
  lift (w_stderr w d) ;;
  modify (fun s => {| clock := clock s; doc := doc s;
                      timings := timings s; err := (err s ++ [d])%list |}).

Definition os_stat (file_path : string) : W stat_result :=
  sleep (w_stat_ticks w file_path) ;; lift (w_stat w file_path).

Definition subprocess_run (argv : list string) : W CompletedProcess :=
  sleep (w_run_ticks w argv) ;; lift (w_run w argv).

Definition get_base_attributes (file_path : string) : W pyval :=
  stat <- os_stat file_path ;;
  ret (PDict [("size", PInt (st_size stat));
              ("created", PSec (st_ctime stat));
              ("modified", PSec (st_mtime stat));
              ("accessed", PSec (st_atime stat))]).

(** The loop over the lines of [mdls] output. *)
Definition parse_mdls (out : string) : dict :=
  fold_left
    (fun attrs line =>
       match Str.split_eq line with
       | Some (key, value) =>
           dict_set (Str.strip key) (PStr (Str.strip value)) attrs
       | None => attrs
       end)
    (Str.split_lines out) [].

Definition elapsed_since (start_time : Z) : W Z :=
  now <- time_time ;; ret (now - start_time).

Definition get_mdls_attributes (file_path : string) : W (pyval * Z) :=
  start_time <- time_time ;;
  try_except
    (result <- subprocess_run ["mdls"; file_path] ;;
     if returncode result =? 0 then
       let attrs := parse_mdls (stdout_text result) in
       t <- elapsed_since start_time ;; ret (PDict attrs, t)
     else
       t <- elapsed_since start_time ;; ret (PDict [], t))
    (fun _ => t <- elapsed_since start_time ;; ret (PDict [], t)).

Definition get_xattr_attributes (file_path : string) : W (pyval * Z) :=
  start_time <- time_time ;;
  try_except
    (result <- subprocess_run ["xattr"; "-l"; file_path] ;;
     if returncode result =? 0 then
       t <- elapsed_since start_time ;;
       ret (PDict [("xattr_data", PStr (stdout_text result))], t)
     else
       t <- elapsed_since start_time ;; ret (PDict [], t))
    (fun _ => t <- elapsed_since start_time ;; ret (PDict [], t)).

Definition get_image_metadata (file_path : string) : W (pyval * Z) :=
  start_time <- time_time ;;
  try_except
    (result <- subprocess_run ["identify"; "-verbose"; file_path] ;;
     if returncode result =? 0 then
       t <- elapsed_since start_time ;;
       ret (PDict [("identify_data", PStr (stdout_text result))], t)
     else
       t <- elapsed_since start_time ;; ret (PDict [], t))
    (fun _ => t <- elapsed_since start_time ;; ret (PDict [], t)).

Definition get_video_metadata (file_path : string) : W (pyval * Z) :=
  start_time <- time_time ;;
  try_except
    (result <- subprocess_run ["ffprobe"; "-v"; "quiet"; "-print_format"; "json";
                               "-show_format"; "-show_streams"; file_path] ;;
     if returncode result =? 0 then
       data <- lift (w_json_loads w (stdout_text result)) ;;
       t <- elapsed_since start_time ;; ret (data, t)
     else
       t <- elapsed_since start_time ;; ret (PDict [], t))
    (fun _ => t <- elapsed_since start_time ;; ret (PDict [], t)).

(** The inner [try] block of [process_file]: base attributes, then the two
    attribute probes. [doc.update] runs only once its argument, and so the
    [stat] call, has been evaluated. *)
Definition base_stage (file_path content_type : string) : W unit :=
  base_start <- time_time ;;
  base <- get_base_attributes file_path ;;
  s <- get ;;
  set_doc (dict_update (doc s)
             [("file_path", PStr file_path);
              ("content_type", PStr content_type);
              ("base_attributes", base)]) ;;
  t <- elapsed_since base_start ;;
  timings_set "base" t ;;
  ' (mdls_data, mdls_time) <- get_mdls_attributes file_path ;;
  ' (xattr_data, xattr_time) <- get_xattr_attributes file_path ;;
  doc_set "extended_attributes"
          (PDict [("mdls", mdls_data); ("xattr", xattr_data)]) ;;
  timings_set "mdls" mdls_time ;;
  timings_set "xattr" xattr_time.

Definition media_stage (file_path content_type : string) : W unit :=
  if Str.startswith content_type "video/" then
    try_except
      (' (video_data, video_time) <- get_video_metadata file_path ;;
       doc_set "video_metadata" video_data ;;
       timings_set "video" video_time)
      (fun e => eprint (VideoMetadataError file_path e) ;;
                timings_set "video" 0)
  else if Str.startswith content_type "image/" then
    try_except
      (' (image_data, image_time) <- get_image_metadata file_path ;;
       doc_set "image_metadata" image_data ;;
       timings_set "image" image_time)
      (fun e => eprint (ImageMetadataError file_path e) ;;
                timings_set "image" 0)
  else ret tt.

(** What a worker hands back: the document or [None], the duration, the
    per-stage timings. *)
Definition extraction : Type := option dict * Z * dict_of Z.

(** The body of the outer [try] of [process_file], lines 95-152. *)
Definition attempt (file_path : string) (start_time : Z) : W extraction :=
  if Str.startswith (Path.basename file_path) "." then
    eprint (SkippingHidden file_path) ;;
    ret (None, 0, [])
  else
    content_type <- lift (w_guess_type w file_path) ;;
    match content_type with
    | None | Some EmptyString =>
        eprint (NoContentType file_path) ;;
        ret (None, 0, [])
    | Some content_type =>
        set_doc [] ;;
        set_timings [] ;;
        try_except
          (base_stage file_path content_type)
          (fun e => eprint (BaseMetadataError file_path e)) ;;
        media_stage file_path content_type ;;
        duration <- elapsed_since start_time ;;
        s <- get ;;
        ret (Some (doc s), duration, timings s)
    end.

(** Lines 153-155: the handler of the outer [try]; its own line to stderr
    is written outside any [try]. *)
Definition failed (file_path : string) (start_time : Z) (e : exception)
  : W extraction :=
  eprint (ProcessFailed file_path e) ;;
  duration <- elapsed_since start_time ;;
  ret (None, duration, []).

Definition process_file (file_path : string) : W extraction :=
  start_time <- time_time ;;
  try_except (attempt file_path start_time) (failed file_path start_time).

End Extractor.

(** A worker starts a task with fresh locals. *)
Definition worker_frame (now : Z) : frame :=
  {| clock := now; doc := []; timings := []; err := [] |}.

(** ** The coordinator: [main] and its result-consumption loop *)

Definition BATCH_SIZE : Z := 20.

(** [min(mp.cpu_count(), 8)] *)
Definition worker_count (cpu_count : Z) : Z := Z.min cpu_count 8.

(** Lines written to stdout. *)
Inductive out_line : Type :=
| Progress (processed total file_size duration : Z) (timing_details : dict_of Z)
| Committed (n batch_size insert_duration processed total : Z)
| CommittedFinal (n batch_size insert_duration processed total : Z).

(** The coordinator's state: the counters and the batch of [main], the
    store's collection with the log of the [insert_many] calls it received,
    and the two output streams. *)
Record state : Type := {
  processed_count : Z;
  total_processing_time : Z;
  results_batch : list dict;
  success_count : Z;
  error_count : Z;
  db_content : list dict;
  db_requests : list (list dict);
  stdout : list out_line;
  stderr : list diag
}.

Definition C (A : Type) : Type := M state A.

Definition upd_processed (f : Z -> Z) (s : state) : state :=
  {| processed_count := f (processed_count s);
     total_processing_time := total_processing_time s;
     results_batch := results_batch s; success_count := success_count s;
     error_count := error_count s; db_content := db_content s;
     db_requests := db_requests s; stdout := stdout s; stderr := stderr s |}.

Definition upd_time (f : Z -> Z) (s : state) : state :=
  {| processed_count := processed_count s;
     total_processing_time := f (total_processing_time s);
     results_batch := results_batch s; success_count := success_count s;
     error_count := error_count s; db_content := db_content s;
     db_requests := db_requests s; stdout := stdout s; stderr := stderr s |}.

Definition upd_batch (f : list dict -> list dict) (s : state) : state :=
  {| processed_count := processed_count s;
     total_processing_time := total_processing_time s;
     results_batch := f (results_batch s); success_count := success_count s;
     error_count := error_count s; db_content := db_content s;
     db_requests := db_requests s; stdout := stdout s; stderr := stderr s |}.

Definition upd_success (f : Z -> Z) (s : state) : state :=
  {| processed_count := processed_count s;
     total_processing_time := total_processing_time s;
     results_batch := results_batch s; success_count := f (success_count s);
     error_count := error_count s; db_content := db_content s;
     db_requests := db_requests s; stdout := stdout s; stderr := stderr s |}.

Definition upd_error (f : Z -> Z) (s : state) : state :=
  {| processed_count := processed_count s;
     total_processing_time := total_processing_time s;
     results_batch := results_batch s; success_count := success_count s;
     error_count := f (error_count s); db_content := db_content s;
     db_requests := db_requests s; stdout := stdout s; stderr := stderr s |}.

Definition upd_db (f : list dict -> list dict) (req : list dict) (s : state)
  : state :=
  {| processed_count := processed_count s;
     total_processing_time := total_processing_time s;
     results_batch := results_batch s; success_count := success_count s;
     error_count := error_count s; db_content := f (db_content s);
     db_requests := (db_requests s ++ [req])%list;
     stdout := stdout s; stderr := stderr s |}.

Definition upd_stdout (l : out_line) (s : state) : state :=
  {| processed_count := processed_count s;
     total_processing_time := total_processing_time s;
     results_batch := results_batch s; success_count := success_count s;
     error_count := error_count s; db_content := db_content s;
     db_requests := db_requests s; stdout := (stdout s ++ [l])%list;
     stderr := stderr s |}.

Definition upd_stderr (d : diag) (s : state) : state :=
  {| processed_count := processed_count s;
     total_processing_time := total_processing_time s;
     results_batch := results_batch s; success_count := success_count s;
     error_count := error_count s; db_content := db_content s;
     db_requests := db_requests s; stdout := stdout s;
     stderr := (stderr s ++ [d])%list |}.

(** What the coordinator meets outside the program while it folds one
    result (or runs the final flush): file sizes, the two writes to stdout,
    the store's answer to [insert_many] and the time that call took. *)
Record oracle : Type := {
  o_getsize : string -> option Z;
  o_progress : result unit;
  o_insert_many : result unit;
  o_insert_ticks : Z;
  o_commit : result unit
}.

(** [l[i]] *)
Definition py_index {A} (l : list A) (i : Z) : result A :=
  let n := Z.of_nat (List.length l) in
  let j := if i <? 0 then i + n else i in
  if (j <? 0) || (n <=? j) then Raise IndexError
  else match nth_error l (Z.to_nat j) with
       | Some a => Ok a
       | None => Raise IndexError
       end.

(** [bool(result)] for what a worker returned: [None] and the empty
    dictionary are false. *)
Definition truthy (r : option dict) : bool :=
  match r with
  | None | Some [] => false
  | Some _ => true
  end.

Definition len {A} (l : list A) : Z := Z.of_nat (List.length l).

Section Coordinator.

Variable all_files : list string.
Let total_files : Z := len all_files.

Definition getsize (o : oracle) (path : string) : C Z :=
  match o_getsize o path with
  | Some n => ret n
  | None => raise (OSError "No such file or directory")
  end.

(** [doc['file_path']], as the argument of [os.path.getsize] *)
Definition doc_file_path (d : dict) : C string :=
  match dict_get "file_path" d with
  | Some (PStr p) => ret p
  | Some _ => raise (TypeError "stat: path should be string")
  | None => raise (KeyError "file_path")
  end.

(** [sum(os.path.getsize(doc['file_path']) for doc in results_batch)] *)
Fixpoint sum_sizes (o : oracle) (batch : list dict) : C Z :=
  match batch with
  | [] => ret 0
  | d :: batch' =>
      p <- doc_file_path d ;;
      n <- getsize o p ;;
      rest <- sum_sizes o batch' ;;
      ret (n + rest)
  end.

Definition print (outcome : result unit) (l : out_line) : C unit :=
  lift outcome ;; modify (upd_stdout l).

(** [db.content.insert_many(batch)]: all of the batch or nothing. *)
Definition insert_many (o : oracle) (batch : list dict) : C unit :=
  match o_insert_many o with
  | Ok _ => modify (upd_db (fun c => (c ++ batch)%list) batch)
  | Raise e => modify (upd_db (fun c => c) batch) ;; raise e
  end.

Definition check_nonzero (d : Z) : C unit :=
  if d =? 0 then raise ZeroDivisionError else ret tt.

(** The body shared by the two flushes: the write and its report. *)
Definition write_batch (o : oracle)
    (line : Z -> Z -> Z -> Z -> Z -> out_line) : C unit :=
  s <- get ;;
  insert_many o (results_batch s) ;;
  let insert_duration := o_insert_ticks o in
  check_nonzero insert_duration ;;
  batch_size <- sum_sizes o (results_batch s) ;;
  check_nonzero total_files ;;
  print (o_commit o)
        (line (len (results_batch s)) batch_size insert_duration
              (processed_count s) total_files).

(** Lines 253-273: the flush at [BATCH_SIZE]. *)
Definition flush_batch (o : oracle) : C unit :=
  try_except
    (write_batch o Committed ;;
     modify (upd_batch (fun _ => [])))
    (fun e =>
       modify (upd_stderr (InsertFailed e)) ;;
       s <- get ;;
       modify (upd_error (fun n => n + len (results_batch s))) ;;
       s <- get ;;
       modify (upd_success (fun n => n - len (results_batch s))) ;;
       modify (upd_batch (fun _ => []))).

(** Lines 220-280: the body of the [for] loop for one result. *)
Definition fold_result (o : oracle) (r : extraction) : C unit :=
  let '(result, duration, timings) := r in
  fun s0 =>
    match
      (modify (upd_processed (fun n => n + 1)) ;;
       modify (upd_time (fun t => t + duration)) ;;
       s <- get ;;
       path <- lift (py_index all_files (processed_count s - 1)) ;;
       file_size <- getsize o path ;;
       let timing_details := filter (fun '(_, t) => 0 <? t) timings in
       check_nonzero total_files ;;
       print (o_progress o)
             (Progress (processed_count s) total_files file_size duration
                       timing_details) ;;
       match result with
       | Some d =>
           if truthy result then
             modify (upd_batch (fun b => (b ++ [d])%list)) ;;
             modify (upd_success (fun n => n + 1)) ;;
             s <- get ;;
             if BATCH_SIZE <=? len (results_batch s) then flush_batch o
             else ret tt
           else modify (upd_error (fun n => n + 1))
       | None => modify (upd_error (fun n => n + 1))
       end) s0
    with
    | (Ok a, s') => (Ok a, s')
    | (Raise BrokenPipeError, s') => (Ok tt, upd_stderr PipeBroken s')
    | (Raise e, s') =>
        (Ok tt, upd_error (fun n => n + 1) (upd_stderr (ResultError e) s'))
    end.

(** Lines 294-313: the flush after the pool is closed. *)
Definition flush_remaining (o : oracle) : C unit :=
  s <- get ;;
  match results_batch s with
  | [] => ret tt
  | _ =>
      try_except
        (write_batch o CommittedFinal)
        (fun e =>
           modify (upd_stderr (FinalInsertFailed e)) ;;
           s <- get ;;
           modify (upd_error (fun n => n + len (results_batch s))) ;;
           s <- get ;;
           modify (upd_success (fun n => n - len (results_batch s))))
  end.

(** What reaches the [for] statement: a result from the pool, a
    termination signal, or an exception surfacing from the pool. *)
Inductive event : Type :=
| Completed (r : extraction) (o : oracle)
| Signal (signum : Z)
| Raises (b : base_exception).

Definition SIGINT : Z := 2.
Definition SIGTERM : Z := 15.

(** Lines 22-24: installed for both [SIGTERM] and [SIGINT]; [sys.exit(0)]
    raises [SystemExit(0)]. *)
Definition signal_handler (signum : Z) (s : state) : base_exception * state :=
  (SystemExit 0, upd_stderr SignalReceived s).

(** The [for] loop over the pool's results: [None] when the results run
    out, the exception that leaves the loop otherwise. *)
Fixpoint consume (evs : list event) (s : state)
  : option base_exception * state :=
  match evs with
  | [] => (None, s)
  | Completed r o :: evs' =>
      match fold_result o r s with
      | (Ok _, s') => consume evs' s'
      | (Raise e, s') => (Some (Exc e), s')
      end
  | Signal signum :: _ =>
      let '(b, s') := signal_handler signum s in (Some b, s')
  | Raises b :: _ => (Some b, s)
  end.

End Coordinator.

(** ** The pool and the whole run *)

(** What happens while the pool is open: worker [idx] of the backlog
    finishes (it started at wall-clock time [started]), a termination signal
    is delivered to the coordinator, or an exception surfaces from the
    pool. Completion order is the order of the schedule. *)
Inductive task_event : Type :=
| Done (idx : nat) (started : Z) (o : oracle)
| Sig (signum : Z)
| Fault (b : base_exception).

(** [pool.imap_unordered(process_func, all_files)]: results in completion
    order; an exception that left a worker's task is raised again in the
    coordinator. *)
Definition imap_unordered (w : world) (all_files : list string)
    (sched : list task_event) : list event :=
  flat_map
    (fun t =>
       match t with
       | Done idx started o =>
           match nth_error all_files idx with
           | Some path =>
               match process_file w path (worker_frame started) with
               | (Ok r, _) => [Completed r o]
               | (Raise e, _) => [Raises (Exc e)]
               end
           | None => []
           end
       | Sig signum => [Signal signum]
       | Fault b => [Raises b]
       end)
    sched.

Record args : Type := {
  root_directory : string;
  truncate : bool;
  mongo_uri : option string
}.

Definition init_state (store : list dict) : state :=
  {| processed_count := 0; total_processing_time := 0; results_batch := [];
     success_count := 0; error_count := 0; db_content := store;
     db_requests := []; stdout := []; stderr := [] |}.

(** What the coordinator meets outside the loop: the answer to
    [MongoClient(mongo_uri)], to [delete_many] and to [count_documents],
    what becomes of the two lines [gather_files] prints to stdout, whether
    the pool can be started, how long the processing took, and whether the
    interpreter can flush stdout when the process exits. *)
Record host : Type := {
  h_connect : result unit;
  h_delete_many : result unit;
  h_gathering : result unit;
  h_found : result unit;
  h_pool : result unit;
  h_total_ticks : Z;
  h_count_documents : result unit;
  h_exit_flush : result unit
}.

(** The state when the pool is opened: the collection emptied when
    [--truncate] is given (and [delete_many] went through), kept
    otherwise. *)
Definition start_state (a : args) (store : list dict) : state :=
  if truncate a then upd_stderr Truncating (init_state [])
  else upd_stderr SkippingTruncation (init_state store).

(** The status with which the process ends once stdout has been written
    to: the interpreter flushes stdout on its way out, and exits with 120
    when that fails, whatever the status was to be. (Text is left to flush
    only when an earlier write to stdout failed; the model leaves the
    outcome of the flush to the outside.) *)
Definition interpreter_exit (h : host) (code : Z) : Z :=
  match h_exit_flush h with
  | Ok _ => code
  | Raise _ => 120
  end.

(** Lines 315-325, after the final flush: the summary on stderr. The rate
    of line 324 divides by the processing time; [count_documents] is the
    last call of the run. Neither is inside a [try]. *)
Definition summary (h : host) (total_files : Z) : C unit :=
  s <- get ;;
  modify (upd_stderr (FinalResults total_files (success_count s)
                                   (error_count s))) ;;
  check_nonzero (h_total_ticks h) ;;
  lift (h_count_documents h) ;;
  modify (upd_stderr (DocumentsInDb (len (db_content s)))).

(** Lines 211-325 of [main]: the loop over the pool's results with its two
    handlers, then the final flush and the summary, with the exit status
    each way out leads to. An exception that nothing catches ends the
    process with status 1, [SystemExit(code)] with [code], a return from
    [main] with 0; [sys.exit(1)] is [SystemExit(1)]. *)
Definition processing (all_files : list string) (evs : list event)
    (fin : oracle) (h : host) (s0 : state) : Z * state :=
  match consume all_files evs s0 with
  | (Some KeyboardInterrupt, s1) =>
      (interpreter_exit h 1, upd_stderr InterruptReceived s1)
  | (Some (Exc e), s1) =>
      (interpreter_exit h 1, upd_stderr (MainLoopError e) s1)
  | (Some (SystemExit code), s1) => (interpreter_exit h code, s1)
  | (None, s1) =>
      match (flush_remaining all_files fin ;; summary h (len all_files)) s1 with
      | (Ok _, s2) => (interpreter_exit h 0, s2)
      | (Raise _, s2) => (interpreter_exit h 1, s2)
      end
  end.

(** [main(args)], with the exit status of the process. [fs] is what lies
    at [args.root_directory] (taken as an absolute path), [store] the
    collection before the run, [fin] the outside world during the final
    flush. Nothing before the call of [gather_files] writes to stdout, and
    nothing before the pool is inside a [try]. *)
Definition main (a : args) (fs : option entry) (store : list dict)
    (w : world) (sched : list task_event) (fin : oracle) (h : host)
  : Z * state :=
  let root_dir := root_directory a in
  match fs with
  | Some (Dir _ _ as tree) =>
      match h_connect h with
      | Raise _ => (1, init_state store)
      | Ok _ =>
      match (if truncate a then h_delete_many h else Ok tt) with
      | Raise _ => (1, upd_stderr Truncating (init_state store))
      | Ok _ =>
      let s0 := start_state a store in
      match h_gathering h with
      | Raise _ => (interpreter_exit h 1, s0)
      | Ok _ =>
      let all_files := gather_files root_dir tree in
      match h_found h with
      | Raise _ => (interpreter_exit h 1, s0)
      | Ok _ =>
      match h_pool h with
      | Raise _ => (interpreter_exit h 1, s0)
      | Ok _ =>
          processing all_files (imap_unordered w all_files sched) fin h s0
      end end end end end
  | _ => (1, upd_stderr (NotADirectory root_dir) (init_state store))
  end.

(** ** A concrete world for examples *)

Module Sample.

Definition guess (p : string) : result (option string) :=
  if String.eqb (Path.basename p) "a.jpg" then Ok (Some "image/jpeg")
  else if String.eqb (Path.basename p) "b.mp4" then Ok (Some "video/mp4")
  else if String.eqb (Path.basename p) "c.txt" then Ok (Some "text/plain")
  else Ok None.

Definition stat_ok : stat_result :=
  {| st_size := 2048; st_ctime := 100; st_mtime := 200; st_atime := 300 |}.

(** Every file can be stat'ed; none of the external tools is installed. *)
Definition bare : world :=
  {| w_guess_type := guess;
     w_stat := fun _ => Ok stat_ok;
     w_run := fun _ => Raise (OSError "No such file or directory");
     w_json_loads := fun _ => Raise (ValueError "Expecting value");
     w_stat_ticks := fun _ => 1;
     w_run_ticks := fun _ => 2;
     w_stderr := fun _ => Ok tt |}.

(** The same, with nobody reading the workers' stderr. *)
Definition unheard : world :=
  {| w_guess_type := guess;
     w_stat := fun _ => Ok stat_ok;
     w_run := fun _ => Raise (OSError "No such file or directory");
     w_json_loads := fun _ => Raise (ValueError "Expecting value");
     w_stat_ticks := fun _ => 1;
     w_run_ticks := fun _ => 2;
     w_stderr := fun _ => Raise BrokenPipeError |}.

(** No file can be stat'ed. *)
Definition statless : world :=
  {| w_guess_type := guess;
     w_stat := fun _ => Raise (OSError "No such file or directory");
     w_run := fun _ => Raise (OSError "No such file or directory");
     w_json_loads := fun _ => Raise (ValueError "Expecting value");
     w_stat_ticks := fun _ => 1;
     w_run_ticks := fun _ => 2;
     w_stderr := fun _ => Ok tt |}.

(** Every call to the outside succeeds. *)
Definition fine : oracle :=
  {| o_getsize := fun p => Some (Z.of_nat (String.length p));
     o_progress := Ok tt;
     o_insert_many := Ok tt;
     o_insert_ticks := 5;
     o_commit := Ok tt |}.

(** Outside the loop, every call succeeds too. *)
Definition calm : host :=
  {| h_connect := Ok tt;
     h_delete_many := Ok tt;
     h_gathering := Ok tt;
     h_found := Ok tt;
     h_pool := Ok tt;
     h_total_ticks := 60;
     h_count_documents := Ok tt;
     h_exit_flush := Ok tt |}.


Definition tree : entry :=
  Dir "data"
    [File "a.jpg"; File ".DS_Store"; File "README";
     Dir ".cache" [File "b.mp4"; File ".hidden.jpg"]].

Definition cli : args :=
  {| root_directory := "/data"; truncate := false; mongo_uri := None |}.

(** A document as the extractor builds it when no tool is installed. *)
Definition doc_of (p : string) : dict :=
  [("file_path", PStr p); ("content_type", PStr "text/plain");
   ("base_attributes",
    PDict [("size", PInt 2048); ("created", PSec 100);
           ("modified", PSec 200); ("accessed", PSec 300)]);
   ("extended_attributes", PDict [("mdls", PDict []); ("xattr", PDict [])])].

Definition in_order (n : nat) : list (nat * Z * oracle) :=
  map (fun i => (i, 0, fine)) (seq 0 n).

(** [n] directories ["a"], ["b"], ... each holding one text file. *)
Definition names (n : nat) : list string :=
  map (fun i => String (ascii_of_nat (97 + i)) EmptyString) (seq 0 n).
Definition shelves (n : nat) : entry :=
  Dir "data" (map (fun d => Dir d [File "c.txt"]) (names n)).


End Sample.

(** * Vocabulary of the properties

    The definitions the statements below are written with. *)

(** [reaches top e root es]: walking down from [top], where [e] lies, one
    arrives at the directory of path [root] and entries [es]. The names of
    the directories passed are unconstrained. *)
Inductive reaches : string -> entry -> string -> list entry -> Prop :=
| reaches_top top n es : reaches top (Dir n es) top es
| reaches_sub top n es n' es' root es'' :
    In (Dir n' es') es ->
    reaches (Path.join top n') (Dir n' es') root es'' ->
    reaches top (Dir n es) root es''.

(** The value a probe hands back: what [decode] makes of the tool's output
    when the tool ran and returned 0, the empty dictionary otherwise. *)
Definition probe_value (w : world) (argv : list string)
    (decode : string -> result pyval) : pyval :=
  match w_run w argv with
  | Ok r =>
      if returncode r =? 0 then
        match decode (stdout_text r) with
        | Ok v => v
        | Raise _ => PDict []
        end
      else PDict []
  | Raise _ => PDict []
  end.

(** The tool could not be run or returned a non-zero status. *)
Definition probe_fails (w : world) (argv : list string) : bool :=
  match w_run w argv with
  | Ok r => negb (returncode r =? 0)
  | Raise _ => true
  end.

Definition mdls_argv (p : string) : list string := ["mdls"; p].
Definition xattr_argv (p : string) : list string := ["xattr"; "-l"; p].
Definition identify_argv (p : string) : list string :=
  ["identify"; "-verbose"; p].
Definition ffprobe_argv (p : string) : list string :=
  ["ffprobe"; "-v"; "quiet"; "-print_format"; "json";
   "-show_format"; "-show_streams"; p].

Definition mdls_value (w : world) (p : string) : pyval :=
  probe_value w (mdls_argv p) (fun out => Ok (PDict (parse_mdls out))).
Definition xattr_value (w : world) (p : string) : pyval :=
  probe_value w (xattr_argv p) (fun out => Ok (PDict [("xattr_data", PStr out)])).
Definition image_value (w : world) (p : string) : pyval :=
  probe_value w (identify_argv p)
              (fun out => Ok (PDict [("identify_data", PStr out)])).
Definition video_value (w : world) (p : string) : pyval :=
  probe_value w (ffprobe_argv p) (w_json_loads w).

Definition base_value (st : stat_result) : pyval :=
  PDict [("size", PInt (st_size st)); ("created", PSec (st_ctime st));
         ("modified", PSec (st_mtime st)); ("accessed", PSec (st_atime st))].

Definition extended_value (w : world) (p : string) : pyval :=
  PDict [("mdls", mdls_value w p); ("xattr", xattr_value w p)].

(** The media field [media_stage] adds, by content type. *)
Definition media_fields (w : world) (p ct : string) : dict :=
  if Str.startswith ct "video/" then [("video_metadata", video_value w p)]
  else if Str.startswith ct "image/" then [("image_metadata", image_value w p)]
  else [].

(** The type filter lets a non-empty content type through. *)
Definition known_type (w : world) (p ct : string) : Prop :=
  w_guess_type w p = Ok (Some ct) /\ ct <> "".

Definition add_err (d : diag) (s : frame) : frame :=
  {| clock := clock s; doc := doc s; timings := timings s;
     err := (err s ++ [d])%list |}.

(** The content-type lookup found nothing: [None] or the empty string. *)
Definition untyped (w : world) (p : string) : bool :=
  match w_guess_type w p with
  | Ok None | Ok (Some EmptyString) => true
  | _ => false
  end.

(** The two filters of [process_file]: the name is not hidden and the
    content-type lookup returns a non-empty type. *)
Definition passes_filters (w : world) (p : string) : bool :=
  negb (Str.startswith (Path.basename p) ".") &&
  match w_guess_type w p with
  | Ok (Some (String _ _)) => true
  | _ => false
  end.

(** A file is skipped when its name is hidden or no content type is found
    for it. *)
Definition skipped (w : world) (p : string) : bool :=
  Str.startswith (Path.basename p) "." || untyped w p.

(** The line [process_file] prints about a skipped file. *)
Definition skip_line (w : world) (p : string) : diag :=
  if Str.startswith (Path.basename p) "." then SkippingHidden p
  else NoContentType p.

(** The worker's stderr takes every line. *)
Definition audible (w : world) : Prop := forall d, w_stderr w d = Ok tt.

(** The claim as the specification words it: [process_file] returns its
    triple for every path, in every outside world. *)
Definition never_raises : Prop :=
  forall (w : world) (p : string) (s : frame),
  exists r s', process_file w p s = (Ok r, s').

(** ** Outcomes of a write and of one turn of the loop *)

Section Outcomes.

Variable all_files : list string.

(** How [write_batch] can end: the store refused the batch; the store took
    it but the report raised; the store took it and the line was written. *)
Inductive written (o : oracle) (line : out_line) (s : state)
  : result unit -> state -> Prop :=
| written_refused e :
    o_insert_many o = Raise e ->
    written o line s (Raise e) (upd_db (fun c => c) (results_batch s) s)
| written_unreported e :
    o_insert_many o = Ok tt ->
    written o line s (Raise e)
            (upd_db (fun c => (c ++ results_batch s)%list) (results_batch s) s)
| written_reported :
    o_insert_many o = Ok tt ->
    written o line s (Ok tt)
            (upd_stdout line
               (upd_db (fun c => (c ++ results_batch s)%list)
                       (results_batch s) s)).

(** The state after a failed flush: the whole batch moves from the success
    counter to the failure counter. *)
Definition demote (e : exception) (d : exception -> diag) (s : state) : state :=
  upd_success (fun n => n - len (results_batch s))
    (upd_error (fun n => n + len (results_batch s))
       (upd_stderr (d e) s)).

(** The size the progress line of the [k+1]-th result shows: that of the
    backlog entry at index [k], when the entry exists, its size can be read
    and the line is written. *)
Definition reported (k : nat) (o : oracle) : option Z :=
  match nth_error all_files k with
  | Some p =>
      match o_getsize o p, o_progress o with
      | Some n, Ok _ => Some n
      | _, _ => None
      end
  | None => None
  end.

(** The progress line hit a broken pipe. *)
Definition pipe_broken (k : nat) (o : oracle) : bool :=
  match nth_error all_files k with
  | Some p =>
      match o_getsize o p, o_progress o with
      | Some _, Raise BrokenPipeError => true
      | _, _ => false
      end
  | None => false
  end.

Definition counted (duration : Z) (s : state) : state :=
  upd_time (fun t => t + duration) (upd_processed (fun n => n + 1) s).

Definition progress_line (size duration : Z) (timings : dict_of Z) (s : state)
  : out_line :=
  Progress (processed_count s + 1) (len all_files) size duration
           (filter (fun '(_, t) => 0 <? t) timings).

(** The state after one result has been folded, case by case: the progress
    line did not go out; it went out and the result was [None] or empty; it
    went out and the document was buffered below the threshold; it went out
    and the buffered batch reached the threshold and was flushed. *)
Inductive folded (k : nat) (o : oracle) (r : extraction) (s : state)
  : state -> Prop :=
| folded_unreported e :
    reported k o = None ->
    folded k o r s
      (if pipe_broken k o then upd_stderr PipeBroken (counted (snd (fst r)) s)
       else upd_error (fun n => n + 1)
              (upd_stderr (ResultError e) (counted (snd (fst r)) s)))
| folded_failure size :
    reported k o = Some size ->
    truthy (fst (fst r)) = false ->
    folded k o r s
      (upd_error (fun n => n + 1)
         (upd_stdout (progress_line size (snd (fst r)) (snd r) s)
                     (counted (snd (fst r)) s)))
| folded_buffered size d :
    reported k o = Some size ->
    fst (fst r) = Some d ->
    truthy (Some d) = true ->
    len (results_batch s ++ [d]) < BATCH_SIZE ->
    folded k o r s
      (upd_success (fun n => n + 1)
         (upd_batch (fun b => (b ++ [d])%list)
            (upd_stdout (progress_line size (snd (fst r)) (snd r) s)
                        (counted (snd (fst r)) s))))
| folded_flushed size d bytes w s1 :
    reported k o = Some size ->
    fst (fst r) = Some d ->
    truthy (Some d) = true ->
    BATCH_SIZE <= len (results_batch s ++ [d]) ->
    written o
      (Committed (len (results_batch s ++ [d])) bytes (o_insert_ticks o)
                 (processed_count s + 1) (len all_files))
      (upd_success (fun n => n + 1)
         (upd_batch (fun b => (b ++ [d])%list)
            (upd_stdout (progress_line size (snd (fst r)) (snd r) s)
                        (counted (snd (fst r)) s))))
      w s1 ->
    folded k o r s
      (upd_batch (fun _ => [])
         match w with
         | Ok _ => s1
         | Raise e => demote e InsertFailed s1
         end).

End Outcomes.

Definition is_completed (ev : event) : bool :=
  match ev with Completed _ _ => true | _ => false end.



(** No name in the tree contains a ['/']. *)
Fixpoint plain_names (e : entry) : bool :=
  match e with
  | File n => negb (Str.contains_char Str.sep n)
  | Dir _ es => forallb plain_names es
  end.

Fixpoint entry_induction (P : entry -> Prop)
    (HF : forall n, P (File n))
    (HD : forall n es, Forall P es -> P (Dir n es))
    (e : entry) {struct e} : P e :=
  match e with
  | File n => HF n
  | Dir n es =>
      HD n es
         ((fix all (l : list entry) : Forall P l :=
             match l with
             | [] => Forall_nil P
             | x :: l' =>
                 Forall_cons x (entry_induction P HF HD x) (all l')
             end) es)
  end.

(** The claim as the specification words it: a skipped file yields no
    document and folding its result leaves the failure counter alone. *)
Definition skips_not_counted : Prop :=
  forall (w : world) (all_files : list string) (p : string) (f : frame)
         (o : oracle) (s : state),
    skipped w p = true ->
    match process_file w p f with
    | (Ok r, _) =>
        fst (fst r) = None /\
        error_count (snd (fold_result all_files o r s)) = error_count s
    | (Raise _, _) => False
    end.

(** The document a turn of the loop appends to the batch, if any: the
    result is a non-empty document and its progress line went out. *)
Definition accepted (all_files : list string) (k : nat) (o : oracle)
    (r : extraction) : list dict :=
  match reported all_files k o, fst (fst r) with
  | Some _, Some d => if truthy (Some d) then [d] else []
  | _, _ => []
  end.

(** The successes the loop accumulates over a run of events, the first of
    which is the [k+1]-th result; a signal or an exception from the pool
    ends the loop. *)
Fixpoint accumulated (all_files : list string) (k : nat) (evs : list event)
  : list dict :=
  match evs with
  | Completed r o :: evs' =>
      (accepted all_files k o r ++ accumulated all_files (S k) evs')%list
  | _ => []
  end.

Definition full (b : list dict) : Prop := len b = BATCH_SIZE.

(** A schedule in which the workers finish one backlog item after another:
    the index of the item, the time the worker started, and the outside
    world when the coordinator folds the result. *)
Definition completions (done : list (nat * Z * oracle)) : list task_event :=
  map (fun d => Done (fst (fst d)) (snd (fst d)) (snd d)) done.

(** The completion order of such a schedule. *)
Definition order (done : list (nat * Z * oracle)) : list nat :=
  map (fun d => fst (fst d)) done.

(** What the worker returns for the file at [path], started at [t]. *)
Definition extract (w : world) (path : string) (t : Z) : extraction :=
  match process_file w path (worker_frame t) with
  | (Ok r, _) => r
  | (Raise _, _) => (None, 0, [])
  end.

(** What the pool hands to the loop for one finished task: the worker's
    result, or the exception that left the worker. *)
Definition delivered (w : world) (all_files : list string)
    (d : nat * Z * oracle) : event :=
  match process_file w (nth (fst (fst d)) all_files "")
                     (worker_frame (snd (fst d))) with
  | (Ok r, _) => Completed r (snd d)
  | (Raise e, _) => Raises (Exc e)
  end.

(** Every task of the schedule ended with a result: no exception left a
    worker. *)
Definition all_delivered (w : world) (all_files : list string)
    (done : list (nat * Z * oracle)) : Prop :=
  forallb is_completed (imap_unordered w all_files (completions done)) = true.

(** The coordinator's state when the schedule [done] has been consumed. *)
Definition state_after (a : args) (fs : entry) (store : list dict)
    (w : world) (done : list (nat * Z * oracle)) : state :=
  let all_files := gather_files (root_directory a) fs in
  snd (consume all_files (imap_unordered w all_files (completions done))
               (start_state a store)).

(** ** How the loop and the process end *)

(** The exception that leaves the [for] loop, [None] when the results run
    out: that of the first event which is not a result. *)
Fixpoint leaves (evs : list event) : option base_exception :=
  match evs with
  | [] => None
  | Completed _ _ :: evs' => leaves evs'
  | Signal _ :: _ => Some (SystemExit 0)
  | Raises b :: _ => Some b
  end.

Definition is_ok {A} (r : result A) : bool :=
  match r with
  | Ok _ => true
  | Raise _ => false
  end.

(** The store is reached: the client is built and, under [--truncate],
    [delete_many] goes through. *)
Definition prepared (a : args) (h : host) : bool :=
  is_ok (h_connect h) && (negb (truncate a) || is_ok (h_delete_many h)).

(** The pool is opened: the store is reached, the two lines of
    [gather_files] are written and the pool starts. *)
Definition launched (a : args) (h : host) : bool :=
  prepared a h && is_ok (h_gathering h) && is_ok (h_found h)
  && is_ok (h_pool h).

(** The summary after the final flush goes through. *)
Definition summed (h : host) : bool :=
  negb (h_total_ticks h =? 0) && is_ok (h_count_documents h).

Definition is_dir (fs : option entry) : bool :=
  match fs with
  | Some (Dir _ _) => true
  | _ => false
  end.

(** What the pool hands to the loop of [main]. *)
Definition pool_events (a : args) (fs : option entry) (w : world)
    (sched : list task_event) : list event :=
  match fs with
  | Some tree =>
      imap_unordered w (gather_files (root_directory a) tree) sched
  | None => []
  end.

(** The exit status of the process, from how the run goes: [evs] is what
    the pool hands to the loop. *)
Definition exit_status (a : args) (fs : option entry) (h : host)
    (evs : list event) : Z :=
  if negb (is_dir fs && prepared a h) then 1
  else
    interpreter_exit h
      (if negb (launched a h) then 1
       else match leaves evs with
            | Some (SystemExit code) => code
            | Some _ => 1
            | None => if summed h then 0 else 1
            end).

(** The store holds [base] followed by documents that each came in one of
    the [insert_many] calls it received. *)
Definition extends (base : list dict) (s : state) : Prop :=
  exists new,
    db_content s = (base ++ new)%list /\
    forall d, In d new -> exists b, In b (db_requests s) /\ In d b.

(** ** Counting over a run of events *)



(** The successes counted are buffered or were taken by the store, on top
    of the [c0] documents it held. *)
Definition accounted (c0 : Z) (s : state) : Prop :=
  len (results_batch s) <= success_count s /\
  success_count s - len (results_batch s) + c0 <= len (db_content s) /\
  0 <= error_count s.

(** ** Runs in which nothing fails *)

(** The outside world lets every report and every write through. *)
Definition smooth (o : oracle) : Prop :=
  o_progress o = Ok tt /\
  o_insert_many o = Ok tt /\
  o_insert_ticks o <> 0 /\
  o_commit o = Ok tt /\
  forall p, o_getsize o p <> None.

(** The document carries its path, as [process_file] stores it. *)
Definition has_path (d : dict) : Prop :=
  exists p, dict_get "file_path" d = Some (PStr p).

(** The document a result contributes: itself when it is a non-empty
    dictionary. *)
Definition docs_of (r : extraction) : list dict :=
  match fst (fst r) with
  | Some d => if truthy (Some d) then [d] else []
  | None => []
  end.

(** The documents of a run of results, in the order received. *)
Definition documents (evs : list event) : list dict :=
  flat_map (fun ev => match ev with
                      | Completed r _ => docs_of r
                      | _ => []
                      end) evs.

(** A result folded without trouble: the world is smooth and the document,
    if any, carries its path. *)
Definition clean (ev : event) : Prop :=
  match ev with
  | Completed r o => smooth o /\ Forall has_path (docs_of r)
  | _ => False
  end.

(** ** Degraded documents *)

(** The timing [media_stage] records, by content type. *)
Definition media_timing (w : world) (p ct : string) : dict_of Z :=
  if Str.startswith ct "video/" then
    [("video", w_run_ticks w (ffprobe_argv p))]
  else if Str.startswith ct "image/" then
    [("image", w_run_ticks w (identify_argv p))]
  else [].


(** ** The attribute lines of [mdls] *)

(** The string does not begin with a white-space character. *)
Definition no_leading_space (s : string) : Prop :=
  forall c r, Str.isspace c = true -> s <> c ++ r.

(** The string does not end with a white-space character. *)
Definition no_trailing_space (s : string) : Prop :=
  forall c r, Str.isspace c = true -> s <> r ++ c.

(** White space neither begins nor ends the string. *)
Definition stripped (s : string) : Prop :=
  no_leading_space s /\ no_trailing_space s.

(** The string without its first character when that is white space. *)
Definition drop_space (s : string) : option string :=
  match s with
  | String a (String b (String c s3 as s2) as s1) =>
      if Str.isspace (String a EmptyString) then Some s1
      else if Str.isspace (String a (String b EmptyString)) then Some s2
      else if Str.isspace (String a (String b (String c EmptyString)))
      then Some s3
      else None
  | String a (String b EmptyString as s1) =>
      if Str.isspace (String a EmptyString) then Some s1
      else if Str.isspace (String a (String b EmptyString))
      then Some EmptyString
      else None
  | String a EmptyString =>
      if Str.isspace (String a EmptyString) then Some EmptyString else None
  | EmptyString => None
  end.

Definition keys {V} (d : dict_of V) : list string := map fst d.

(** A probe left the worker's dictionaries and diagnostics alone and
    reports the time that passed. *)
Definition probed (s : frame) (t : Z) (s' : frame) : Prop :=
  doc s' = doc s /\ timings s' = timings s /\ err s' = err s /\
  t = clock s' - clock s.

(** * Properties *)

(** ** Paths and the backlog *)

Lemma contains_char_app c a b :
  Str.contains_char c (a ++ b) = Str.contains_char c a || Str.contains_char c b.
Proof.
  induction a as [|d a IH]; simpl; [reflexivity|].
  rewrite IH. now rewrite orb_assoc.
Qed.

Lemma basename_no_sep p :
  Str.contains_char Str.sep p = false -> Path.basename p = p.
Proof.
  destruct p as [|c p]; cbn [Str.contains_char Path.basename]; [reflexivity|].
  intros H. apply orb_false_iff in H as [Hc Hp].
  rewrite Hp, Ascii.eqb_sym, Hc. reflexivity.
Qed.

Lemma basename_app_sep a f :
  Str.contains_char Str.sep f = false ->
  Path.basename (a ++ String Str.sep f) = f.
Proof.
  intros Hf. induction a as [|c a IH];
    cbn [append Path.basename Str.contains_char].
  - now rewrite Hf, Ascii.eqb_refl.
  - rewrite contains_char_app. cbn [Str.contains_char].
    rewrite Ascii.eqb_refl, orb_true_r. exact IH.
Qed.

Lemma endswith_sep_split a :
  Str.endswith_sep a = true -> exists a0, a = a0 ++ String Str.sep "".
Proof.
  induction a as [|c a IH]; simpl; [discriminate|].
  destruct a as [|d a].
  - intros H. apply Ascii.eqb_eq in H. subst c. now exists "".
  - intros H. destruct (IH H) as [a0 E]. exists (String c a0).
    simpl. now rewrite <- E.
Qed.

Lemma append_assoc a b c : (a ++ b) ++ c = a ++ (b ++ c).
Proof. induction a as [|x a IH]; simpl; [reflexivity | now rewrite IH]. Qed.

Lemma basename_join root f :
  Str.contains_char Str.sep f = false ->
  Path.basename (Path.join root f) = f.
Proof.
  intros Hf. unfold Path.join.
  destruct (Str.startswith f "/"); [now apply basename_no_sep|].
  destruct root as [|c root]; [now apply basename_no_sep|].
  destruct (Str.endswith_sep (String c root)) eqn:E.
  - destruct (endswith_sep_split _ E) as [a0 ->].
    rewrite append_assoc. simpl. now apply basename_app_sep.
  - now apply basename_app_sep.
Qed.

Lemma walk_reaches top e root es :
  reaches top e root es ->
  In (root, dirnames es, filenames es) (walk top e).
Proof.
  induction 1 as [top n es | top n es n' es' root es'' Hin _ IH]; simpl.
  - now left.
  - right. apply in_flat_map. exists (Dir n' es'). now split.
Qed.

Lemma in_filenames f es : In (File f) es -> In f (filenames es).
Proof.
  intros H. unfold filenames. apply in_flat_map.
  exists (File f). split; [assumption | now left].
Qed.

Lemma gather_files_in top e root dirs files f :
  In (root, dirs, files) (walk top e) ->
  In f files ->
  Str.startswith f "." = false ->
  In (Path.join root f) (gather_files top e).
Proof.
  intros Hw Hf Hdot. unfold gather_files. apply in_flat_map.
  exists (root, dirs, files). split; [assumption|].
  apply in_flat_map. exists f. split; [assumption|].
  rewrite Hdot. now left.
Qed.

Lemma gather_files_not_hidden top e p :
  In p (gather_files top e) ->
  exists root file, p = Path.join root file /\ Str.startswith file "." = false.
Proof.
  unfold gather_files. intros H.
  apply in_flat_map in H as [[[root dirs] files] [_ H]].
  apply in_flat_map in H as [file [_ H]].
  destruct (Str.startswith file ".") eqn:E; simpl in H; [contradiction|].
  destruct H as [<- | []]. now exists root, file.
Qed.

Lemma in_filenames_inv f es : In f (filenames es) -> In (File f) es.
Proof.
  unfold filenames. intros H. apply in_flat_map in H as [e [He H]].
  destruct e as [n|n sub]; [|contradiction].
  destruct H as [<- | []]. exact He.
Qed.

Lemma walk_plain e :
  forall top root dirs files f,
    plain_names e = true ->
    In (root, dirs, files) (walk top e) ->
    In f files ->
    Str.contains_char Str.sep f = false.
Proof.
  induction e as [n | n es IH] using entry_induction;
    intros top root dirs files f Hp Hin Hf.
  - contradiction.
  - cbn [plain_names] in Hp. rewrite forallb_forall in Hp.
    cbn [walk] in Hin. destruct Hin as [E | Hin].
    + injection E as _ _ <-.
      apply in_filenames_inv, Hp in Hf. cbn in Hf.
      now apply negb_true_iff in Hf.
    + apply in_flat_map in Hin as [c [Hc Hin]].
      destruct c as [m | m sub]; [contradiction|].
      rewrite Forall_forall in IH.
      exact (IH _ Hc _ _ _ _ _ (Hp _ Hc) Hin Hf).
Qed.

Lemma gather_files_basename top fs p :
  plain_names fs = true ->
  In p (gather_files top fs) ->
  Str.startswith (Path.basename p) "." = false.
Proof.
  intros Hp H. unfold gather_files in H.
  apply in_flat_map in H as [[[root dirs] files] [Hw H]].
  apply in_flat_map in H as [file [Hf H]].
  destruct (Str.startswith file ".") eqn:E; simpl in H; [contradiction|].
  destruct H as [<- | []].
  rewrite basename_join; [exact E|].
  eapply walk_plain; eauto.
Qed.

(** C10. [gather_files] tests only the file's own name. A file whose name
    does not begin with ['.'] is in the backlog wherever it lies below the
    root, also below directories whose names begin with ['.'] (no directory
    is pruned from the walk); and since its path ends in that name,
    [process_file] does not take it for a hidden file either. A file whose
    name begins with ['.'] is left out, wherever it lies (names holding no
    ['/']). *)
Theorem gather_files_tests_basename_only :
  forall top fs root es file,
    reaches top fs root es ->
    In (File file) es ->
    (Str.startswith file "." = false ->
     In (Path.join root file) (gather_files top fs) /\
     (Str.contains_char Str.sep file = false ->
      Str.startswith (Path.basename (Path.join root file)) "." = false)) /\
    (plain_names fs = true ->
     Str.startswith file "." = true ->
     ~ In (Path.join root file) (gather_files top fs)).
Proof.
  intros top fs root es file Hr Hin. split.
  - intros Hdot. split.
    + eapply gather_files_in; eauto using walk_reaches, in_filenames.
    + intros Hsep. now rewrite basename_join.
  - intros Hp Hdot Hb.
    apply (gather_files_basename top fs _ Hp) in Hb.
    rewrite basename_join in Hb; [congruence|].
    eapply walk_plain;
      [exact Hp | apply walk_reaches; exact Hr | now apply in_filenames].
Qed.

Lemma gather_files_tests_basename_only_witness :
  Str.startswith ".cache" "." = true /\
  In "/data/.cache/b.mp4" (gather_files "/data" Sample.tree) /\
  Str.startswith (Path.basename "/data/.cache/b.mp4") "." = false /\
  ~ In "/data/.cache/.hidden.jpg" (gather_files "/data" Sample.tree) /\
  ~ In "/data/.DS_Store" (gather_files "/data" Sample.tree).
Proof.
  split; [reflexivity|].
  assert (R : reaches "/data" Sample.tree "/data/.cache"
                [File "b.mp4"; File ".hidden.jpg"]).
  { unfold Sample.tree.
    eapply reaches_sub with (n' := ".cache");
      [ simpl; do 3 right; left; reflexivity | apply reaches_top ]. }
  destruct (gather_files_tests_basename_only
              "/data" Sample.tree "/data/.cache"
              [File "b.mp4"; File ".hidden.jpg"] "b.mp4" R
              (or_introl eq_refl)) as [H _].
  destruct (H eq_refl) as [H1 H2].
  split; [exact H1|]. split; [exact (H2 eq_refl)|].
  split.
  - exact (proj2 (gather_files_tests_basename_only
                    "/data" Sample.tree "/data/.cache"
                    [File "b.mp4"; File ".hidden.jpg"] ".hidden.jpg" R
                    (or_intror (or_introl eq_refl)))
                 eq_refl eq_refl).
  - exact (proj2 (gather_files_tests_basename_only
                    "/data" Sample.tree "/data"
                    [File "a.jpg"; File ".DS_Store"; File "README";
                     Dir ".cache" [File "b.mp4"; File ".hidden.jpg"]]
                    ".DS_Store" (reaches_top "/data" "data" _)
                    (or_intror (or_introl eq_refl)))
                 eq_refl eq_refl).
Defined.

(** ** Sequencing, [try] and the diagnostic line *)

Lemma bind_ok {S A B} (m : M S A) (k : A -> M S B) s a s' :
  m s = (Ok a, s') -> bind m k s = k a s'.
Proof. intros E. unfold bind. now rewrite E. Qed.

Lemma bind_raise {S A B} (m : M S A) (k : A -> M S B) s e s' :
  m s = (Raise e, s') -> bind m k s = (Raise e, s').
Proof. intros E. unfold bind. now rewrite E. Qed.

Lemma try_except_ok {S A} (m : M S A) h s a s' :
  m s = (Ok a, s') -> try_except m h s = (Ok a, s').
Proof. intros E. unfold try_except. now rewrite E. Qed.

Lemma try_except_raise {S A} (m : M S A) h s e s' :
  m s = (Raise e, s') -> try_except m h s = h e s'.
Proof. intros E. unfold try_except. now rewrite E. Qed.

Lemma eprint_ok w d s :
  w_stderr w d = Ok tt -> eprint w d s = (Ok tt, add_err d s).
Proof. intros H. unfold eprint, bind, lift, modify. now rewrite H. Qed.

Lemma eprint_raise w d e s :
  w_stderr w d = Raise e -> eprint w d s = (Raise e, s).
Proof. intros H. unfold eprint, bind, lift. now rewrite H. Qed.

(** ** What the probes return *)

Lemma probe_value_fails w argv decode :
  probe_fails w argv = true -> probe_value w argv decode = PDict [].
Proof.
  unfold probe_fails, probe_value.
  destruct (w_run w argv) as [r|e]; [|reflexivity].
  now destruct (returncode r =? 0).
Qed.

Ltac run_probe w argv :=
  unfold bind, try_except, subprocess_run, sleep, modify, lift, time_time,
    elapsed_since, ret, probe_value; cbn;
  destruct (w_run w argv) as [r|e]; cbn;
  [ destruct (returncode r =? 0); cbn | ];
  repeat match goal with
         | |- context [w_json_loads w ?x] => destruct (w_json_loads w x); cbn
         end;
  rewrite Z.add_simpl_l; reflexivity.

Lemma get_mdls_attributes_eq w p s :
  get_mdls_attributes w p s =
  (Ok (mdls_value w p, w_run_ticks w (mdls_argv p)),
   tick (w_run_ticks w (mdls_argv p)) s).
Proof.
  unfold get_mdls_attributes, mdls_value, mdls_argv.
  run_probe w ["mdls"; p].
Qed.

Lemma get_xattr_attributes_eq w p s :
  get_xattr_attributes w p s =
  (Ok (xattr_value w p, w_run_ticks w (xattr_argv p)),
   tick (w_run_ticks w (xattr_argv p)) s).
Proof.
  unfold get_xattr_attributes, xattr_value, xattr_argv.
  run_probe w ["xattr"; "-l"; p].
Qed.

Lemma get_image_metadata_eq w p s :
  get_image_metadata w p s =
  (Ok (image_value w p, w_run_ticks w (identify_argv p)),
   tick (w_run_ticks w (identify_argv p)) s).
Proof.
  unfold get_image_metadata, image_value, identify_argv.
  run_probe w ["identify"; "-verbose"; p].
Qed.

Lemma get_video_metadata_eq w p s :
  get_video_metadata w p s =
  (Ok (video_value w p, w_run_ticks w (ffprobe_argv p)),
   tick (w_run_ticks w (ffprobe_argv p)) s).
Proof.
  unfold get_video_metadata, video_value, ffprobe_argv.
  run_probe w ["ffprobe"; "-v"; "quiet"; "-print_format"; "json";
               "-show_format"; "-show_streams"; p].
Qed.

(** ** The document of a file whose type and base attributes are known *)

Lemma base_stage_ok w p ct st s :
  w_stat w p = Ok st ->
  exists s',
    base_stage w p ct s = (Ok tt, s') /\
    doc s' = dict_set "extended_attributes" (extended_value w p)
               (dict_update (doc s)
                  [("file_path", PStr p); ("content_type", PStr ct);
                   ("base_attributes", base_value st)]).
Proof.
  intros Hst. unfold base_stage, get_base_attributes, os_stat.
  erewrite bind_ok by reflexivity.
  erewrite bind_ok;
    [| erewrite bind_ok;
       [| erewrite bind_ok by reflexivity; unfold lift; rewrite Hst;
          reflexivity ]; reflexivity ].
  do 4 (erewrite bind_ok by reflexivity).
  erewrite bind_ok by apply get_mdls_attributes_eq. cbv beta iota.
  erewrite bind_ok by apply get_xattr_attributes_eq. cbv beta iota.
  eexists. split; reflexivity.
Qed.

Lemma base_stage_raise w p ct e s :
  w_stat w p = Raise e ->
  base_stage w p ct s = (Raise e, tick (w_stat_ticks w p) s).
Proof.
  intros Hst. unfold base_stage, get_base_attributes, os_stat.
  erewrite bind_ok by reflexivity.
  erewrite bind_raise; [reflexivity|].
  erewrite bind_raise; [reflexivity|].
  erewrite bind_ok by reflexivity. unfold lift. now rewrite Hst.
Qed.

Lemma media_stage_ok w p ct s :
  exists s',
    media_stage w p ct s = (Ok tt, s') /\
    doc s' = dict_update (doc s) (media_fields w p ct).
Proof.
  unfold media_stage, media_fields.
  destruct (Str.startswith ct "video/").
  - erewrite try_except_ok;
      [| erewrite bind_ok by apply get_video_metadata_eq; reflexivity ].
    eexists. split; reflexivity.
  - destruct (Str.startswith ct "image/").
    + erewrite try_except_ok;
        [| erewrite bind_ok by apply get_image_metadata_eq; reflexivity ].
      eexists. split; reflexivity.
    + eexists. split; reflexivity.
Qed.

(** The body of the outer [try] for a file that passes the filters and can
    be stat'ed: nothing is printed and a document is returned. *)
Lemma attempt_typed w p ct st t s :
  Str.startswith (Path.basename p) "." = false ->
  known_type w p ct ->
  w_stat w p = Ok st ->
  exists d duration tm s',
    attempt w p t s = (Ok (Some d, duration, tm), s') /\
    d = dict_update
          [("file_path", PStr p); ("content_type", PStr ct);
           ("base_attributes", base_value st);
           ("extended_attributes", extended_value w p)]
          (media_fields w p ct).
Proof.
  intros Hh [Hg Hne] Hst. unfold attempt. rewrite Hh.
  set (s1 := {| clock := clock s; doc := []; timings := []; err := err s |}).
  destruct (base_stage_ok w p ct st s1 Hst) as (s2 & EB & DB).
  destruct (media_stage_ok w p ct s2) as (s3 & EM & DM).
  exists (doc s3), (clock s3 - t), (timings s3), s3. split.
  - erewrite bind_ok by (unfold lift; rewrite Hg; reflexivity).
    destruct ct as [|c ct]; [congruence|].
    do 2 (erewrite bind_ok by reflexivity). fold s1.
    erewrite bind_ok by (apply try_except_ok; exact EB).
    erewrite bind_ok by exact EM.
    reflexivity.
  - now rewrite DM, DB.
Qed.

(** ** The outer [try] of [process_file] *)

Lemma process_file_ok w p s r s' :
  attempt w p (clock s) s = (Ok r, s') -> process_file w p s = (Ok r, s').
Proof.
  intros E. unfold process_file. erewrite bind_ok by reflexivity.
  now apply try_except_ok.
Qed.

Lemma process_file_caught w p s e s1 :
  attempt w p (clock s) s = (Raise e, s1) ->
  w_stderr w (ProcessFailed p e) = Ok tt ->
  process_file w p s =
  (Ok (None, clock s1 - clock s, []), add_err (ProcessFailed p e) s1).
Proof.
  intros E H. unfold process_file. erewrite bind_ok by reflexivity.
  erewrite try_except_raise by exact E. unfold failed.
  erewrite bind_ok by (apply eprint_ok; exact H). reflexivity.
Qed.

Lemma process_file_escapes w p s e s1 e' :
  attempt w p (clock s) s = (Raise e, s1) ->
  w_stderr w (ProcessFailed p e) = Raise e' ->
  process_file w p s = (Raise e', s1).
Proof.
  intros E H. unfold process_file. erewrite bind_ok by reflexivity.
  erewrite try_except_raise by exact E. unfold failed.
  erewrite bind_raise by (apply eprint_raise; exact H). reflexivity.
Qed.

(** An exception that leaves [process_file] was raised by the write of the
    handler's line. *)
Lemma process_file_raise w p s e' s' :
  process_file w p s = (Raise e', s') ->
  exists e, w_stderr w (ProcessFailed p e) = Raise e'.
Proof.
  intros H.
  destruct (attempt w p (clock s) s) as [[r|e] s1] eqn:E.
  - rewrite (process_file_ok w p s r s1 E) in H. discriminate.
  - exists e. destruct (w_stderr w (ProcessFailed p e)) as [[]|e1] eqn:Hw.
    + rewrite (process_file_caught w p s e s1 E Hw) in H. discriminate.
    + rewrite (process_file_escapes w p s e s1 e1 E Hw) in H. congruence.
Qed.

(** When the handler's line can be written, [process_file] returns. *)
Lemma process_file_returns w p s :
  (forall e, w_stderr w (ProcessFailed p e) = Ok tt) ->
  exists r s', process_file w p s = (Ok r, s').
Proof.
  intros H.
  destruct (attempt w p (clock s) s) as [[r|e] s1] eqn:E.
  - exists r, s1. now apply process_file_ok.
  - do 2 eexists. apply (process_file_caught w p s e s1 E (H e)).
Qed.

Lemma process_file_typed w p ct st s :
  Str.startswith (Path.basename p) "." = false ->
  known_type w p ct ->
  w_stat w p = Ok st ->
  exists d duration tm s',
    process_file w p s = (Ok (Some d, duration, tm), s') /\
    d = dict_update
          [("file_path", PStr p); ("content_type", PStr ct);
           ("base_attributes", base_value st);
           ("extended_attributes", extended_value w p)]
          (media_fields w p ct).
Proof.
  intros Hh Hk Hst.
  destruct (attempt_typed w p ct st (clock s) s Hh Hk Hst)
    as (d & t & tm & s' & E & D).
  exists d, t, tm, s'. split; [now apply process_file_ok | exact D].
Qed.

(** ** Files the filters stop, and files that cannot be stat'ed *)

Lemma attempt_skipped w p t s :
  skipped w p = true ->
  attempt w p t s = (eprint w (skip_line w p) ;; ret (None, 0, [])) s.
Proof.
  unfold skipped, skip_line, attempt, untyped. intros H.
  destruct (Str.startswith (Path.basename p) ".") eqn:Hh; [reflexivity|].
  cbn [orb] in H. unfold bind at 1, lift.
  destruct (w_guess_type w p) as [[[|c ct]|]|e]; try discriminate;
    reflexivity.
Qed.

Lemma process_file_skipped w p s :
  skipped w p = true ->
  w_stderr w (skip_line w p) = Ok tt ->
  process_file w p s = (Ok (None, 0, []), add_err (skip_line w p) s).
Proof.
  intros Hs Hw. apply process_file_ok. rewrite attempt_skipped by exact Hs.
  erewrite bind_ok by (apply eprint_ok; exact Hw). reflexivity.
Qed.

(** The line about the skip could not be written: the outer handler takes
    over. *)
Lemma process_file_skipped_unheard w p s e :
  skipped w p = true ->
  w_stderr w (skip_line w p) = Raise e ->
  process_file w p s =
  match w_stderr w (ProcessFailed p e) with
  | Ok _ => (Ok (None, 0, []), add_err (ProcessFailed p e) s)
  | Raise e' => (Raise e', s)
  end.
Proof.
  intros Hs Hw.
  assert (E : attempt w p (clock s) s = (Raise e, s)).
  { rewrite attempt_skipped by exact Hs. apply bind_raise, eprint_raise, Hw. }
  destruct (w_stderr w (ProcessFailed p e)) as [[]|e'] eqn:Hf.
  - rewrite (process_file_caught w p s e s E Hf). now rewrite Z.sub_diag.
  - apply (process_file_escapes w p s e s e' E Hf).
Qed.

Lemma attempt_guess_raises w p t e s :
  Str.startswith (Path.basename p) "." = false ->
  w_guess_type w p = Raise e ->
  attempt w p t s = (Raise e, s).
Proof.
  intros Hh Hg. unfold attempt. rewrite Hh.
  apply bind_raise. unfold lift. now rewrite Hg.
Qed.

Lemma media_stage_eq w p ct s :
  media_stage w p ct s =
  (Ok tt,
   if Str.startswith ct "video/" then
     {| clock := clock s + w_run_ticks w (ffprobe_argv p);
        doc := dict_set "video_metadata" (video_value w p) (doc s);
        timings := dict_set "video" (w_run_ticks w (ffprobe_argv p)) (timings s);
        err := err s |}
   else if Str.startswith ct "image/" then
     {| clock := clock s + w_run_ticks w (identify_argv p);
        doc := dict_set "image_metadata" (image_value w p) (doc s);
        timings := dict_set "image" (w_run_ticks w (identify_argv p)) (timings s);
        err := err s |}
   else s).
Proof.
  unfold media_stage.
  destruct (Str.startswith ct "video/").
  - erewrite try_except_ok;
      [| erewrite bind_ok by apply get_video_metadata_eq; reflexivity ].
    reflexivity.
  - destruct (Str.startswith ct "image/"); [| reflexivity].
    erewrite try_except_ok;
      [| erewrite bind_ok by apply get_image_metadata_eq; reflexivity ].
    reflexivity.
Qed.

(** The state in which the inner handler of [process_file] runs when
    [stat] has raised. *)
Lemma base_stage_caught w p ct e s :
  w_stat w p = Raise e ->
  try_except (base_stage w p ct)
    (fun e => eprint w (BaseMetadataError p e)) s =
  eprint w (BaseMetadataError p e) (tick (w_stat_ticks w p) s).
Proof.
  intros Hst. now erewrite try_except_raise by (apply base_stage_raise; exact Hst).
Qed.

Lemma attempt_stat_raises w p ct e t s :
  Str.startswith (Path.basename p) "." = false ->
  known_type w p ct ->
  w_stat w p = Raise e ->
  w_stderr w (BaseMetadataError p e) = Ok tt ->
  exists duration s',
    attempt w p t s =
      (Ok (Some (media_fields w p ct), duration, media_timing w p ct), s') /\
    err s' = (err s ++ [BaseMetadataError p e])%list.
Proof.
  intros Hh [Hg Hne] Hst Hw. unfold attempt. rewrite Hh.
  set (s1 := {| clock := clock s; doc := []; timings := []; err := err s |}).
  set (s2 := add_err (BaseMetadataError p e) (tick (w_stat_ticks w p) s1)).
  assert (B : try_except (base_stage w p ct)
                (fun e => eprint w (BaseMetadataError p e)) s1 = (Ok tt, s2)).
  { rewrite (base_stage_caught w p ct e s1 Hst). now apply eprint_ok. }
  pose proof (media_stage_eq w p ct s2) as EM.
  unfold media_fields, media_timing.
  destruct (Str.startswith ct "video/") eqn:V;
    [| destruct (Str.startswith ct "image/") eqn:I];
    do 2 eexists;
    (split;
     [ (erewrite bind_ok by (unfold lift; rewrite Hg; reflexivity));
       (destruct ct as [|c ct]; [congruence|]);
       do 2 (erewrite bind_ok by reflexivity); fold s1;
       (erewrite bind_ok by exact B);
       (erewrite bind_ok by exact EM);
       reflexivity
     | reflexivity ]).
Qed.

Lemma attempt_stat_raises_unheard w p ct e e' t s :
  Str.startswith (Path.basename p) "." = false ->
  known_type w p ct ->
  w_stat w p = Raise e ->
  w_stderr w (BaseMetadataError p e) = Raise e' ->
  attempt w p t s =
  (Raise e',
   tick (w_stat_ticks w p)
        {| clock := clock s; doc := []; timings := []; err := err s |}).
Proof.
  intros Hh [Hg Hne] Hst Hw. unfold attempt. rewrite Hh.
  erewrite bind_ok by (unfold lift; rewrite Hg; reflexivity).
  destruct ct as [|c ct]; [congruence|].
  do 2 (erewrite bind_ok by reflexivity).
  apply bind_raise. rewrite (base_stage_caught _ _ _ e) by exact Hst.
  now apply eprint_raise.
Qed.

(** C8, counterexample. With nobody reading the worker's stderr, the line
    about the missing content type of ["/data/README"] raises
    [BrokenPipeError], the outer handler catches it, and the handler's own
    line raises again: the exception leaves [process_file]. *)
Lemma never_raises_counterexample : ~ never_raises.
Proof.
  intros H.
  destruct (H Sample.unheard "/data/README" (worker_frame 0)) as (r & s' & E).
  vm_compute in E. discriminate E.
Qed.

(** C8, as the code has it. Every exception of [stat], of the content-type
    lookup, of the external tools and of the JSON decoder is caught, in
    every outside world, and so is that of a diagnostic line that cannot be
    written inside the outer [try]. [process_file] returns its triple
    whenever the line its outer handler prints can be written; an exception
    that leaves it is the one raised by the write of that line. When the
    worker's stderr takes every line, the result is a document exactly when
    the two filters let the file through, and [None] otherwise. *)
Theorem process_file_raises_only_from_its_handler :
  forall (w : world) (file_path : string) (s : frame),
    ((forall e, w_stderr w (ProcessFailed file_path e) = Ok tt) ->
     exists (result : option dict) (duration : Z) (timings : dict_of Z)
            (s' : frame),
       process_file w file_path s = (Ok (result, duration, timings), s')) /\
    (forall e' s',
        process_file w file_path s = (Raise e', s') ->
        exists e, w_stderr w (ProcessFailed file_path e) = Raise e') /\
    (audible w ->
     exists (result : option dict) (duration : Z) (timings : dict_of Z)
            (s' : frame),
       process_file w file_path s = (Ok (result, duration, timings), s') /\
       match result with
       | Some _ => passes_filters w file_path = true
       | None => passes_filters w file_path = false
       end).
Proof.
  intros w p s. split; [| split].
  - intros H. destruct (process_file_returns w p s H) as ([[r t] tm] & s' & E).
    now exists r, t, tm, s'.
  - intros e' s'. apply process_file_raise.
  - intros Ha. unfold passes_filters.
    destruct (Str.startswith (Path.basename p) ".") eqn:Hh.
    + exists None, 0, [], (add_err (skip_line w p) s). split; [| reflexivity].
      apply process_file_skipped; [| apply Ha].
      unfold skipped. now rewrite Hh.
    + destruct (w_guess_type w p) as [[[|c ct]|]|e] eqn:Hg.
      * exists None, 0, [], (add_err (skip_line w p) s). split; [| reflexivity].
        apply process_file_skipped; [| apply Ha].
        unfold skipped, untyped. now rewrite Hh, Hg.
      * assert (K : known_type w p (String c ct))
          by (split; [assumption | discriminate]).
        destruct (w_stat w p) as [st|e] eqn:Hst.
        -- destruct (process_file_typed w p (String c ct) st s Hh K Hst)
             as (d & t & tm & s' & E & _).
           exists (Some d), t, tm, s'. now split.
        -- destruct (attempt_stat_raises w p (String c ct) e (clock s) s
                       Hh K Hst (Ha _)) as (t & s' & E & _).
           do 4 eexists. split; [apply process_file_ok; exact E | reflexivity].
      * exists None, 0, [], (add_err (skip_line w p) s). split; [| reflexivity].
        apply process_file_skipped; [| apply Ha].
        unfold skipped, untyped. now rewrite Hh, Hg.
      * exists None, (clock s - clock s), [], (add_err (ProcessFailed p e) s).
        split; [| reflexivity].
        apply (process_file_caught w p s e s); [| apply Ha].
        now apply attempt_guess_raises.
Qed.

Lemma process_file_raises_only_from_its_handler_witness :
  exists (duration : Z) (timings : dict_of Z) (s' : frame),
    process_file Sample.bare "/data/README" (worker_frame 0)
    = (Ok (None, duration, timings), s').
Proof.
  destruct (process_file_raises_only_from_its_handler
              Sample.bare "/data/README" (worker_frame 0)) as (_ & _ & H).
  destruct (H (fun d => eq_refl)) as (r & t & tm & s' & E & F).
  destruct r as [d|]; [discriminate F|].
  now exists t, tm, s'.
Defined.

(** C6. When the file is not hidden, its content type is found and [stat]
    succeeds, [process_file] returns a document, and a non-empty one, with
    the path, the content type and the base attributes. The two attribute
    maps are there and each is empty when its probe fails; the media field
    of the file's class is there and is empty when its probe fails. No
    failure of a probe turns the result into [None]. *)
Theorem document_despite_probe_failures :
  forall (w : world) (p ct : string) (st : stat_result) (s : frame),
    Str.startswith (Path.basename p) "." = false ->
    known_type w p ct ->
    w_stat w p = Ok st ->
    exists d duration tm s',
      process_file w p s = (Ok (Some d, duration, tm), s') /\
      truthy (Some d) = true /\
      dict_get "file_path" d = Some (PStr p) /\
      dict_get "content_type" d = Some (PStr ct) /\
      dict_get "base_attributes" d = Some (base_value st) /\
      dict_get "extended_attributes" d =
        Some (PDict [("mdls", mdls_value w p); ("xattr", xattr_value w p)]) /\
      (probe_fails w (mdls_argv p) = true -> mdls_value w p = PDict []) /\
      (probe_fails w (xattr_argv p) = true -> xattr_value w p = PDict []) /\
      (if Str.startswith ct "video/" then
         dict_get "video_metadata" d = Some (video_value w p) /\
         (probe_fails w (ffprobe_argv p) = true -> video_value w p = PDict [])
       else if Str.startswith ct "image/" then
         dict_get "image_metadata" d = Some (image_value w p) /\
         (probe_fails w (identify_argv p) = true -> image_value w p = PDict [])
       else
         dict_get "video_metadata" d = None /\
         dict_get "image_metadata" d = None).
Proof.
  intros w p ct st s Hh Hk Hst.
  destruct (process_file_typed w p ct st s Hh Hk Hst)
    as (d & t & tm & s' & E & D).
  exists d, t, tm, s'.
  split; [exact E|].
  unfold media_fields in D.
  destruct (Str.startswith ct "video/");
    [| destruct (Str.startswith ct "image/")];
    subst d; cbn;
    repeat split; try reflexivity; apply probe_value_fails.
Qed.

Lemma document_despite_probe_failures_witness :
  exists d duration tm s',
    process_file Sample.bare "/data/a.jpg" (worker_frame 0)
      = (Ok (Some d, duration, tm), s') /\
    dict_get "extended_attributes" d
      = Some (PDict [("mdls", PDict []); ("xattr", PDict [])]) /\
    dict_get "image_metadata" d = Some (PDict []).
Proof.
  assert (K : known_type Sample.bare "/data/a.jpg" "image/jpeg")
    by (split; [reflexivity | discriminate]).
  destruct (document_despite_probe_failures
              Sample.bare "/data/a.jpg" "image/jpeg" Sample.stat_ok
              (worker_frame 0) eq_refl K eq_refl)
    as (d & t & tm & s' & E & _ & _ & _ & _ & X & _ & _ & I).
  exists d, t, tm, s'. split; [exact E|].
  split; [exact X|]. exact (proj1 I).
Defined.

(** ** One turn of the result-consumption loop *)

Lemma py_index_nat {A} (l : list A) (k : nat) :
  py_index l (Z.of_nat k) =
  match nth_error l k with Some a => Ok a | None => Raise IndexError end.
Proof.
  unfold py_index.
  destruct (Z.ltb_spec (Z.of_nat k) 0) as [H|_]; [lia|].
  destruct (Z.ltb_spec (Z.of_nat k) 0) as [H|_]; [lia|].
  cbn [orb]. rewrite Nat2Z.id.
  destruct (Z.leb_spec (Z.of_nat (List.length l)) (Z.of_nat k)) as [H|H].
  - assert (E : nth_error l k = None) by (apply nth_error_None; lia).
    now rewrite E.
  - reflexivity.
Qed.

Lemma sum_sizes_state o batch s :
  exists r, sum_sizes o batch s = (r, s).
Proof.
  induction batch as [|d batch [r IH]]; cbn [sum_sizes].
  - now exists (Ok 0).
  - unfold bind, doc_file_path, getsize.
    destruct (dict_get "file_path" d) as [[| | | |p| |]|];
      try (eexists; reflexivity).
    cbn. destruct (o_getsize o p); cbn; [| eexists; reflexivity].
    rewrite IH. destruct r; eexists; reflexivity.
Qed.

Section Steps.

Variable all_files : list string.

Lemma write_batch_spec o mk s :
  exists bytes r s',
    write_batch all_files o mk s = (r, s') /\
    written o (mk (len (results_batch s)) bytes (o_insert_ticks o)
                  (processed_count s) (len all_files)) s r s'.
Proof.
  unfold write_batch.
  erewrite bind_ok by reflexivity.
  unfold insert_many.
  destruct (o_insert_many o) as [[]|e] eqn:Hins.
  - erewrite bind_ok by reflexivity.
    unfold check_nonzero at 1.
    destruct (o_insert_ticks o =? 0).
    { exists 0. do 2 eexists. split; [reflexivity | now constructor]. }
    erewrite bind_ok by reflexivity.
    destruct (sum_sizes_state o (results_batch s)
                (upd_db (fun c => (c ++ results_batch s)%list)
                        (results_batch s) s)) as [[bytes|e] E].
    2:{ exists 0. do 2 eexists. split;
          [erewrite bind_raise by exact E; reflexivity | now constructor]. }
    erewrite bind_ok by exact E.
    unfold check_nonzero.
    destruct (len all_files =? 0).
    { exists 0. do 2 eexists. split; [reflexivity | now constructor]. }
    erewrite bind_ok by reflexivity.
    unfold print, lift, bind.
    destruct (o_commit o) as [[]|e].
    + exists bytes. do 2 eexists. split; [reflexivity | now constructor].
    + exists 0. do 2 eexists. split; [reflexivity | now constructor].
  - exists 0. do 2 eexists. split; [reflexivity | now constructor].
Qed.

Lemma flush_batch_spec o s :
  exists bytes r s1,
    written o (Committed (len (results_batch s)) bytes (o_insert_ticks o)
                         (processed_count s) (len all_files)) s r s1 /\
    flush_batch all_files o s =
    (Ok tt,
     upd_batch (fun _ => [])
       match r with
       | Ok _ => s1
       | Raise e => demote e InsertFailed s1
       end).
Proof.
  destruct (write_batch_spec o Committed s) as (bytes & r & s1 & E & Hw).
  exists bytes, r, s1. split; [exact Hw|].
  unfold flush_batch.
  destruct r as [[]|e].
  - apply try_except_ok. erewrite bind_ok by exact E. reflexivity.
  - erewrite try_except_raise by (erewrite bind_raise by exact E; reflexivity).
    reflexivity.
Qed.

Lemma flush_remaining_spec o s :
  results_batch s <> [] ->
  exists bytes r s1,
    written o (CommittedFinal (len (results_batch s)) bytes (o_insert_ticks o)
                              (processed_count s) (len all_files)) s r s1 /\
    flush_remaining all_files o s =
    (Ok tt,
     match r with
     | Ok _ => s1
     | Raise e => demote e FinalInsertFailed s1
     end).
Proof.
  intros Hne.
  destruct (write_batch_spec o CommittedFinal s) as (bytes & r & s1 & E & Hw).
  exists bytes, r, s1. split; [exact Hw|].
  unfold flush_remaining. erewrite bind_ok by reflexivity.
  destruct (results_batch s) as [|d b] eqn:Hb; [congruence|].
  rewrite <- Hb in *.
  destruct r as [[]|e].
  - now apply try_except_ok.
  - erewrite try_except_raise by exact E. reflexivity.
Qed.

Lemma flush_remaining_empty o s :
  results_batch s = [] -> flush_remaining all_files o s = (Ok tt, s).
Proof.
  intros Hb. unfold flush_remaining. erewrite bind_ok by reflexivity.
  now rewrite Hb.
Qed.

Lemma nth_error_len_nonzero {A} (l : list A) k a :
  nth_error l k = Some a -> (len l =? 0) = false.
Proof.
  intros H. destruct l; [now destruct k|]. unfold len. cbn [List.length].
  apply Z.eqb_neq. lia.
Qed.

Lemma fold_result_unreported o result duration timings s k :
  processed_count s = Z.of_nat k ->
  reported all_files k o = None ->
  exists e,
    fold_result all_files o (result, duration, timings) s =
    (Ok tt,
     if pipe_broken all_files k o then upd_stderr PipeBroken (counted duration s)
     else upd_error (fun n => n + 1)
            (upd_stderr (ResultError e) (counted duration s))).
Proof.
  intros Hk Hr. unfold fold_result, reported, pipe_broken in *.
  do 3 (erewrite bind_ok by reflexivity).
  cbn [processed_count upd_time upd_processed].
  rewrite Hk, Z.add_simpl_r, py_index_nat.
  destruct (nth_error all_files k) as [p|] eqn:Hn.
  2:{ exists IndexError. reflexivity. }
  erewrite bind_ok by reflexivity.
  unfold getsize at 1.
  destruct (o_getsize o p) as [n|].
  2:{ exists (OSError "No such file or directory"). reflexivity. }
  erewrite bind_ok by reflexivity.
  unfold check_nonzero. fold (len all_files).
  rewrite (nth_error_len_nonzero _ _ _ Hn).
  erewrite bind_ok by reflexivity.
  unfold print, lift.
  destruct (o_progress o) as [[]|e]; [discriminate|].
  exists e. destruct e; reflexivity.
Qed.

Lemma fold_result_reported o result duration timings s k size :
  processed_count s = Z.of_nat k ->
  reported all_files k o = Some size ->
  let s2 := upd_stdout (progress_line all_files size duration timings s)
                       (counted duration s) in
  fold_result all_files o (result, duration, timings) s =
  match result with
  | Some (kv :: d) =>
      let s3 := upd_success (fun n => n + 1)
                  (upd_batch (fun b => (b ++ [(kv :: d) : dict])%list) s2) in
      if BATCH_SIZE <=? len (results_batch s3) then flush_batch all_files o s3
      else (Ok tt, s3)
  | _ => (Ok tt, upd_error (fun n => n + 1) s2)
  end.
Proof.
  intros Hk Hr s2. unfold fold_result, reported in *.
  do 3 (erewrite bind_ok by reflexivity).
  cbn [processed_count upd_time upd_processed].
  rewrite Hk, Z.add_simpl_r, py_index_nat.
  destruct (nth_error all_files k) as [p|] eqn:Hn; [|discriminate].
  erewrite bind_ok by reflexivity.
  unfold getsize at 1.
  destruct (o_getsize o p) as [n|]; [|discriminate].
  erewrite bind_ok by reflexivity.
  unfold check_nonzero. fold (len all_files).
  rewrite (nth_error_len_nonzero _ _ _ Hn).
  erewrite bind_ok by reflexivity.
  unfold print, lift.
  destruct (o_progress o) as [[]|e]; [|discriminate].
  injection Hr as ->.
  erewrite bind_ok by reflexivity. cbv beta.
  assert (E2 : upd_stdout
                 (Progress (Z.of_nat k + 1) (len all_files) size duration
                    (filter (fun '(_, t) => 0 <? t) timings))
                 (upd_time (fun t => t + duration)
                    (upd_processed (fun n => n + 1) s)) = s2).
  { unfold s2, progress_line, counted. now rewrite Hk. }
  rewrite E2.
  destruct result as [[|kv d]|]; try reflexivity.
  cbn [truthy].
  do 3 (erewrite bind_ok by reflexivity). cbv beta zeta.
  set (s3 := upd_success (fun n => n + 1)
               (upd_batch (fun b => (b ++ [(kv :: d) : dict])%list) s2)).
  destruct (BATCH_SIZE <=? len (results_batch s3)); [|reflexivity].
  destruct (flush_batch_spec o s3) as (b & r & s1 & _ & E).
  rewrite E. reflexivity.
Qed.

Lemma fold_result_folded o r s k :
  processed_count s = Z.of_nat k ->
  exists s', fold_result all_files o r s = (Ok tt, s') /\ folded all_files k o r s s'.
Proof.
  intros Hk. destruct r as [[result duration] timings].
  destruct (reported all_files k o) as [size|] eqn:Hrep.
  - rewrite (fold_result_reported o result duration timings s k size Hk Hrep).
    destruct result as [[|kv d]|].
    + eexists. split; [reflexivity|]. now apply folded_failure with (size := size).
    + cbv zeta.
      set (s3 := upd_success _ _).
      destruct (Z.leb_spec BATCH_SIZE (len (results_batch s3))) as [Hge|Hlt].
      * destruct (flush_batch_spec o s3) as (bytes & w & s1 & Hw & E).
        rewrite E. eexists. split; [reflexivity|].
        eapply folded_flushed with (size := size) (d := kv :: d); eauto.
      * eexists. split; [reflexivity|].
        now apply folded_buffered with (size := size) (d := kv :: d).
    + eexists. split; [reflexivity|]. now apply folded_failure with (size := size).
  - destruct (fold_result_unreported o result duration timings s k Hk Hrep)
      as [e E].
    rewrite E. eexists. split; [reflexivity|].
    now apply (folded_unreported all_files k o (result, duration, timings) s e).
Qed.

End Steps.

(** ** A batch the store refuses *)



(** ** The loop as a whole *)

Section Loop.

Variable all_files : list string.

Lemma folded_processed k o r s s' :
  folded all_files k o r s s' -> processed_count s' = processed_count s + 1.
Proof.
  destruct 1 as [e _ | size _ _ | size d _ _ _ _ | size d bytes w s1 _ _ _ _ Hw].
  - now destruct (pipe_broken all_files k o).
  - reflexivity.
  - reflexivity.
  - destruct Hw; reflexivity.
Qed.

Lemma consume_step r o evs s k :
  processed_count s = Z.of_nat k ->
  exists s',
    folded all_files k o r s s' /\
    processed_count s' = Z.of_nat (S k) /\
    consume all_files (Completed r o :: evs) s = consume all_files evs s'.
Proof.
  intros Hk. destruct (fold_result_folded all_files o r s k Hk) as (s' & E & F).
  exists s'. split; [exact F|]. split.
  - rewrite (folded_processed _ _ _ _ _ F), Hk. lia.
  - cbn [consume]. now rewrite E.
Qed.





End Loop.



(** ** Skipped files *)

(** C1, counterexample. ["/data/README"] has no extension, so no content
    type: [process_file] returns [(None, 0, {})] and the loop, folding it
    as the first result of a backlog that holds it, sets [error_count]
    to 1. *)
Lemma skips_not_counted_counterexample : ~ skips_not_counted.
Proof.
  intros H.
  specialize (H Sample.bare ["/data/README"] "/data/README" (worker_frame 0)
                Sample.fine (init_state []) eq_refl).
  vm_compute in H. destruct H as [_ H]. discriminate H.
Qed.

(** C1, as the code has it. A skipped file yields no document: whenever
    [process_file] returns for it, it returns [(None, 0, {})], and it does
    return when its line about the skip can be written (an exception leaves
    it only when neither that line nor the line of its handler can be
    written, and then no result reaches the loop). A file whose own name
    begins with ['.'] is not in the backlog [gather_files] builds, so no
    result of it reaches the counters. A [None] result that is folded adds
    nothing to the batch or the store and leaves the success counter alone,
    but it is counted as a failure: [error_count] goes up by one (unless the
    progress line hit a broken pipe). *)
Theorem skipped_file_no_document_counted_failed :
  forall (w : world) (p : string),
    skipped w p = true ->
    (forall f,
        match process_file w p f with
        | (Ok r, _) => r = (None, 0, [])
        | (Raise e', _) =>
            exists e, w_stderr w (skip_line w p) = Raise e /\
                      w_stderr w (ProcessFailed p e) = Raise e'
        end) /\
    (forall f,
        w_stderr w (skip_line w p) = Ok tt ->
        process_file w p f = (Ok (None, 0, []), add_err (skip_line w p) f)) /\
    (Str.startswith (Path.basename p) "." = true ->
     forall top fs, plain_names fs = true -> ~ In p (gather_files top fs)) /\
    (forall all_files o s k,
        processed_count s = Z.of_nat k ->
        exists s',
          fold_result all_files o (None, 0, []) s = (Ok tt, s') /\
          results_batch s' = results_batch s /\
          db_content s' = db_content s /\
          db_requests s' = db_requests s /\
          success_count s' = success_count s /\
          error_count s' =
            error_count s + (if pipe_broken all_files k o then 0 else 1)).
Proof.
  intros w p Hs. split; [| split; [| split]].
  - intros f. destruct (w_stderr w (skip_line w p)) as [[]|e] eqn:Hw.
    + now rewrite (process_file_skipped w p f Hs Hw).
    + rewrite (process_file_skipped_unheard w p f e Hs Hw).
      destruct (w_stderr w (ProcessFailed p e)) as [[]|e'] eqn:Hf;
        [reflexivity|].
      now exists e.
  - intros f Hw. now apply process_file_skipped.
  - intros Hh top fs Hp Hin.
    apply (gather_files_basename top fs p Hp) in Hin. congruence.
  - intros all_files o s k Hk.
    destruct (fold_result_folded all_files o (None, 0, []) s k Hk)
      as (s' & E & F).
    exists s'. split; [exact E|].
    inversion F as [e _ | size Hrep _ | size d _ Hd _ _ | size d bytes r s1 _ Hd _ _ _];
      try discriminate Hd.
    + destruct (pipe_broken all_files k o); cbn; repeat split; lia.
    + assert (Hb : pipe_broken all_files k o = false).
      { unfold reported in Hrep. unfold pipe_broken.
        destruct (nth_error all_files k) as [q|]; [|reflexivity].
        destruct (o_getsize o q); [|reflexivity].
        now destruct (o_progress o). }
      rewrite Hb. cbn. repeat split; lia.
Qed.

Lemma skipped_file_no_document_counted_failed_witness :
  process_file Sample.bare "/data/README" (worker_frame 0)
  = (Ok (None, 0, []),
     add_err (NoContentType "/data/README") (worker_frame 0)) /\
  exists s',
    fold_result ["/data/README"] Sample.fine (None, 0, []) (init_state [])
      = (Ok tt, s') /\
    error_count s' = 1 /\ success_count s' = 0 /\ results_batch s' = [].
Proof.
  destruct (skipped_file_no_document_counted_failed
              Sample.bare "/data/README" eq_refl)
    as (_ & R & _ & H).
  split; [exact (R (worker_frame 0) eq_refl)|].
  destruct (H ["/data/README"] Sample.fine (init_state []) O eq_refl)
    as (s' & E & Hb & _ & _ & Hs & He).
  exists s'. repeat split; assumption.
Defined.

(** ** One flush per twenty documents *)

Lemma len_app {A} (l1 l2 : list A) : len (l1 ++ l2) = len l1 + len l2.
Proof. unfold len. rewrite length_app. lia. Qed.


Section Batches.

Variable all_files : list string.

Lemma folded_batches k o r s s' :
  folded all_files k o r s s' ->
  len (results_batch s) < BATCH_SIZE ->
  Forall full (db_requests s) ->
  (List.concat (db_requests s') ++ results_batch s' =
   List.concat (db_requests s) ++ results_batch s ++ accepted all_files k o r)%list /\
  len (results_batch s') < BATCH_SIZE /\
  Forall full (db_requests s').
Proof.
  unfold accepted.
  destruct 1 as [e Hr | size Hr Ht | size d Hr Hd Ht Hlt
                 | size d bytes w s1 Hr Hd Ht Hge Hw];
    intros Hlen Hfull; rewrite Hr.
  - rewrite app_nil_r. destruct (pipe_broken all_files k o); now cbn.
  - destruct (fst (fst r)) as [d|]; [rewrite Ht|]; rewrite app_nil_r; now cbn.
  - rewrite Hd, Ht. now cbn.
  - rewrite Hd, Ht.
    assert (Hb : full (results_batch s ++ [d])).
    { unfold full. rewrite len_app in *. unfold len in *. cbn in *. lia. }
    assert (Hq : db_requests s1 = (db_requests s ++ [results_batch s ++ [d]])%list)
      by (destruct Hw; reflexivity).
    assert (E : db_requests
                  (upd_batch (fun _ => [])
                     match w with
                     | Ok _ => s1
                     | Raise e => demote e InsertFailed s1
                     end) = db_requests s1) by (now destruct w).
    assert (B : results_batch
                  (upd_batch (fun _ => [])
                     match w with
                     | Ok _ => s1
                     | Raise e => demote e InsertFailed s1
                     end) = []) by reflexivity.
    rewrite E, B, Hq. split; [| split].
    + rewrite concat_app. cbn [List.concat]. now rewrite !app_nil_r.
    + reflexivity.
    + apply Forall_app. split; [exact Hfull | now constructor].
Qed.

Lemma consume_batches evs :
  forall s k,
    processed_count s = Z.of_nat k ->
    len (results_batch s) < BATCH_SIZE ->
    Forall full (db_requests s) ->
    let s' := snd (consume all_files evs s) in
    (List.concat (db_requests s') ++ results_batch s' =
     List.concat (db_requests s) ++ results_batch s ++ accumulated all_files k evs)%list /\
    len (results_batch s') < BATCH_SIZE /\
    Forall full (db_requests s').
Proof.
  induction evs as [|[r o | signum | b] evs IH]; intros s k Hk Hlen Hfull;
    cbn [accumulated].
  - cbn. now rewrite app_nil_r.
  - destruct (consume_step all_files r o evs s k Hk) as (s1 & F & Hk1 & ->).
    destruct (folded_batches k o r s s1 F Hlen Hfull) as (E1 & L1 & F1).
    destruct (IH s1 (S k) Hk1 L1 F1) as (E2 & L2 & F2).
    cbv zeta. split; [| now split].
    rewrite E2, app_assoc, E1, <- !app_assoc. reflexivity.
  - cbn. now rewrite app_nil_r.
  - cbn. now rewrite app_nil_r.
Qed.

End Batches.

(** ** The size shown on a progress line *)

Section Progress.

Variable all_files : list string.

Lemma folded_stdout k o r s s' :
  folded all_files k o r s s' ->
  (forall l, In l (stdout s) -> In l (stdout s')) /\
  (forall size,
      reported all_files k o = Some size ->
      In (progress_line all_files size (snd (fst r)) (snd r) s) (stdout s')) /\
  (forall c tot sz du det,
      In (Progress c tot sz du det) (stdout s') ->
      In (Progress c tot sz du det) (stdout s) \/
      (reported all_files k o = Some sz /\
       Progress c tot sz du det =
       progress_line all_files sz (snd (fst r)) (snd r) s)).
Proof.
  destruct 1 as [e Hr | size Hr Ht | size d Hr Hd Ht Hlt
                 | size d bytes w s1 Hr Hd Ht Hge Hw].
  - assert (E : stdout (if pipe_broken all_files k o
                        then upd_stderr PipeBroken (counted (snd (fst r)) s)
                        else upd_error (fun n => n + 1)
                               (upd_stderr (ResultError e)
                                           (counted (snd (fst r)) s)))
                = stdout s) by (now destruct (pipe_broken all_files k o)).
    rewrite E. split; [auto|]. split; [congruence | auto].
  - cbn [stdout upd_error upd_stdout counted upd_time upd_processed].
    split; [| split].
    + intros l Hl. apply in_or_app. now left.
    + intros sz Hs. apply in_or_app. right. left. congruence.
    + intros c tot sz du det Hin. apply in_app_or in Hin as [Hin | [Hin | []]].
      * now left.
      * right. unfold progress_line in *. injection Hin as <- <- <- <- <-.
        now split.
  - cbn [stdout upd_success upd_batch upd_stdout counted upd_time upd_processed].
    split; [| split].
    + intros l Hl. apply in_or_app. now left.
    + intros sz Hs. apply in_or_app. right. left. congruence.
    + intros c tot sz du det Hin. apply in_app_or in Hin as [Hin | [Hin | []]].
      * now left.
      * right. unfold progress_line in *. injection Hin as <- <- <- <- <-.
        now split.
  - assert (E : stdout (upd_batch (fun _ => [])
                          match w with
                          | Ok _ => s1
                          | Raise e => demote e InsertFailed s1
                          end) = stdout s1) by (now destruct w).
    rewrite E. clear E.
    set (pl := progress_line all_files size (snd (fst r)) (snd r) s) in *.
    assert (S1 : stdout s1 = (stdout s ++ [pl])%list \/
                 exists n b t c tot,
                   stdout s1 = (stdout s ++ [pl; Committed n b t c tot])%list).
    { destruct Hw; [now left | now left |].
      right. do 5 eexists. cbn. rewrite <- app_assoc. reflexivity. }
    assert (S2 : forall l, In l (stdout s1) <->
                           In l (stdout s) \/ l = pl \/
                           (exists n b t c tot, l = Committed n b t c tot /\
                                                In l (stdout s1))).
    { intros l. destruct S1 as [-> | (n & b & t & c & tot & ->)]; split.
      - intros H. apply in_app_or in H as [H | [H | []]]; auto.
      - intros [H | [H | (? & ? & ? & ? & ? & _ & H)]]; [| | exact H];
          apply in_or_app; [now left | right; left; congruence].
      - intros H. apply in_app_or in H as [H | [H | [H | []]]]; auto.
        right. right. exists n, b, t, c, tot. split; [congruence|].
        apply in_or_app. right. right. now left.
      - intros [H | [H | (? & ? & ? & ? & ? & _ & H)]]; [| | exact H];
          apply in_or_app; [now left | right; left; congruence]. }
    split; [| split].
    + intros l Hl. apply S2. now left.
    + intros sz Hs. apply S2. right. left. unfold pl. congruence.
    + intros c tot sz du det Hin. apply S2 in Hin.
      destruct Hin as [Hin | [Hin | (? & ? & ? & ? & ? & Hin & _)]].
      * now left.
      * right. unfold pl, progress_line in *.
        injection Hin as -> -> -> -> ->. now split.
      * discriminate Hin.
Qed.

Lemma consume_stdout evs :
  forall s k,
    processed_count s = Z.of_nat k ->
    let s' := snd (consume all_files evs s) in
    (forall l, In l (stdout s) -> In l (stdout s')) /\
    (forallb is_completed evs = true ->
     forall j r o size,
       nth_error evs j = Some (Completed r o) ->
       reported all_files (k + j) o = Some size ->
       In (Progress (Z.of_nat (k + j) + 1) (len all_files) size (snd (fst r))
                    (filter (fun '(_, t) => 0 <? t) (snd r)))
          (stdout s')) /\
    (forall c tot sz du det,
        In (Progress c tot sz du det) (stdout s') ->
        In (Progress c tot sz du det) (stdout s) \/
        exists j r o,
          nth_error evs j = Some (Completed r o) /\
          c = Z.of_nat (k + j) + 1 /\
          reported all_files (k + j) o = Some sz /\
          du = snd (fst r)).
Proof.
  induction evs as [|[r o | signum | b] evs IH]; intros s k Hk; cbv zeta.
  - cbn. split; [auto|]. split; [| auto]. intros _ [|j]; discriminate.
  - destruct (consume_step all_files r o evs s k Hk) as (s1 & F & Hk1 & ->).
    destruct (folded_stdout k o r s s1 F) as (M1 & P1 & C1).
    destruct (IH s1 (S k) Hk1) as (M2 & P2 & C2).
    split; [auto|]. split.
    + intros Hall [|j] r' o' size Hn Hr.
      * injection Hn as -> ->. rewrite Nat.add_0_r in *.
        apply M2. specialize (P1 size Hr).
        unfold progress_line in P1. now rewrite Hk in P1.
      * cbn [forallb is_completed andb] in Hall. cbn [nth_error] in Hn.
        replace (k + S j)%nat with (S k + j)%nat in * by lia.
        exact (P2 Hall j r' o' size Hn Hr).
    + intros c tot sz du det Hin.
      destruct (C2 c tot sz du det Hin) as [Hin1 | (j & r' & o' & Hn & Hc & Hr & Hd)].
      * destruct (C1 c tot sz du det Hin1) as [Hin0 | [Hr E]]; [now left|].
        right. exists O, r, o. rewrite Nat.add_0_r.
        unfold progress_line in E. injection E as -> _ -> _.
        repeat split; auto. now rewrite Hk.
      * right. exists (S j), r', o'.
        replace (k + S j)%nat with (S k + j)%nat by lia. now repeat split.
  - cbn. split; [auto|]. split; [discriminate | auto].
  - cbn. split; [auto|]. split; [discriminate | auto].
Qed.

End Progress.

(** ** The pool's results in the loop *)

Lemma imap_unordered_app w all_files l1 l2 :
  imap_unordered w all_files (l1 ++ l2) =
  (imap_unordered w all_files l1 ++ imap_unordered w all_files l2)%list.
Proof. apply flat_map_app. Qed.

(** Workers whose stderr takes every line return their results. *)
Lemma audible_all_delivered w all_files done :
  audible w -> all_delivered w all_files done.
Proof.
  intros Ha. unfold all_delivered.
  induction done as [|[[i t] o] done IH]; [reflexivity|].
  cbn [completions map imap_unordered flat_map fst snd].
  rewrite forallb_app. apply andb_true_iff. split; [| exact IH].
  destruct (nth_error all_files i) as [p|]; [|reflexivity].
  destruct (process_file_returns w p (worker_frame t) (fun e => Ha _))
    as (r & s' & ->).
  reflexivity.
Qed.

Lemma imap_unordered_delivered w all_files done :
  Forall (fun d => (fst (fst d) < List.length all_files)%nat) done ->
  imap_unordered w all_files (completions done) =
  map (delivered w all_files) done.
Proof.
  induction 1 as [|[[i t] o] done Hi _ IH]; [reflexivity|].
  cbn [completions map imap_unordered flat_map fst snd] in *.
  unfold completions, imap_unordered in IH. rewrite IH.
  unfold delivered. cbn [fst snd].
  destruct (nth_error all_files i) as [p|] eqn:Hn.
  - rewrite (nth_error_nth _ _ _ Hn).
    now destruct (process_file w p (worker_frame t)) as [[r|e] s'].
  - apply nth_error_None in Hn. lia.
Qed.

(** A result the pool delivered is what the worker returned. *)
Lemma delivered_completed w all_files i t o r o' :
  delivered w all_files (i, t, o) = Completed r o' ->
  r = extract w (nth i all_files "") t /\ o' = o.
Proof.
  unfold delivered, extract. cbn [fst snd].
  destruct (process_file w (nth i all_files "") (worker_frame t))
    as [[r0|e0] f0]; [| discriminate].
  intros H. injection H as <- <-. now split.
Qed.

Section Run.

Variable all_files : list string.

Lemma consume_completed evs :
  forall s k,
    processed_count s = Z.of_nat k ->
    forallb is_completed evs = true ->
    fst (consume all_files evs s) = None /\
    forall evs',
      consume all_files (evs ++ evs') s =
      consume all_files evs' (snd (consume all_files evs s)).
Proof.
  induction evs as [|[r o | signum | b] evs IH]; intros s k Hk Hall;
    try discriminate.
  - now split.
  - cbn [forallb is_completed andb] in Hall.
    destruct (fold_result_folded all_files o r s k Hk) as (s1 & E & F).
    assert (Hk1 : processed_count s1 = Z.of_nat (S k))
      by (rewrite (folded_processed _ _ _ _ _ _ F), Hk; lia).
    destruct (IH s1 (S k) Hk1 Hall) as [I1 I2].
    split.
    + cbn [consume]. now rewrite E.
    + intros evs'. rewrite <- app_comm_cons. cbn [consume]. rewrite E.
      apply I2.
Qed.

End Run.

Lemma start_state_fresh a store :
  processed_count (start_state a store) = Z.of_nat 0 /\
  results_batch (start_state a store) = [] /\
  db_requests (start_state a store) = [] /\
  stdout (start_state a store) = [].
Proof. unfold start_state. destruct (truncate a); repeat split. Qed.

Lemma differs_from_seq (l : list nat) :
  forall k, l <> seq k (List.length l) ->
            exists j i, nth_error l j = Some i /\ i <> (k + j)%nat.
Proof.
  induction l as [|x l IH]; intros k H; [now contradiction H|].
  destruct (Nat.eq_dec x k) as [-> | Hx].
  - destruct (IH (S k)) as (j & i & Hn & Hi).
    { intros E. apply H. cbn. now rewrite <- E. }
    exists (S j), i. split; [exact Hn | lia].
  - exists O, x. split; [reflexivity | lia].
Qed.

(** C7. The size on a progress line is looked up by position. Every
    progress line written carries, with the count [j+1] of results received
    so far, the size of the backlog entry at index [j], while its duration
    is that of the file whose result was received, the entry at the index
    the pool delivered. So when the completion order is not the submission
    order (on a backlog of distinct paths, with every result delivered and
    every line written), some line shows the size of a file other than the
    one that completed. *)
Theorem progress_size_by_backlog_position :
  forall (w : world) (all_files : list string) (a : args)
         (store : list dict) (done : list (nat * Z * oracle)),
    Forall (fun d => (fst (fst d) < List.length all_files)%nat) done ->
    let s1 := snd (consume all_files
                     (imap_unordered w all_files (completions done))
                     (start_state a store)) in
    (forall c tot sz du det,
        In (Progress c tot sz du det) (stdout s1) ->
        exists j i t o p q,
          c = Z.of_nat j + 1 /\
          nth_error done j = Some (i, t, o) /\
          nth_error all_files j = Some p /\
          o_getsize o p = Some sz /\
          nth_error all_files i = Some q /\
          du = snd (fst (extract w q t))) /\
    (all_delivered w all_files done ->
     NoDup all_files ->
     order done <> seq 0 (List.length done) ->
     (forall j i t o,
         nth_error done j = Some (i, t, o) -> reported all_files j o <> None) ->
     exists j i t o p q sz,
       nth_error done j = Some (i, t, o) /\
       nth_error all_files j = Some p /\
       nth_error all_files i = Some q /\
       p <> q /\
       o_getsize o p = Some sz /\
       In (Progress (Z.of_nat j + 1) (len all_files) sz
                    (snd (fst (extract w q t)))
                    (filter (fun '(_, t) => 0 <? t) (snd (extract w q t))))
          (stdout s1)).
Proof.
  intros w all_files a store done Hrange s1.
  destruct (start_state_fresh a store) as (Hk & _ & _ & Hout).
  destruct (consume_stdout all_files
              (imap_unordered w all_files (completions done))
              (start_state a store) O Hk) as (_ & P & C).
  fold s1 in P, C.
  rewrite (imap_unordered_delivered w all_files done Hrange) in P, C.
  assert (Q : forall j i t o,
             nth_error done j = Some (i, t, o) ->
             exists q, nth_error all_files i = Some q /\
                       nth i all_files "" = q).
  { intros j i t o Hn. apply nth_error_In in Hn.
    rewrite Forall_forall in Hrange. specialize (Hrange _ Hn). cbn in Hrange.
    exists (nth i all_files ""). split; [| reflexivity].
    now apply nth_error_nth'. }
  split.
  - intros c tot sz du det Hin.
    destruct (C c tot sz du det Hin) as [Hin0 | (j & r & o & Hn & Hc & Hr & Hd)].
    { rewrite Hout in Hin0. contradiction. }
    rewrite nth_error_map in Hn.
    destruct (nth_error done j) as [[[i t] o']|] eqn:Hj; [|discriminate].
    cbn [option_map] in Hn. injection Hn as Hn.
    apply delivered_completed in Hn as [-> ->].
    destruct (Q j i t o' Hj) as (q & Hq & Eq). rewrite Eq in Hd.
    cbn [Nat.add] in Hr, Hc.
    unfold reported in Hr.
    destruct (nth_error all_files j) as [p|] eqn:Hp; [|discriminate].
    exists j, i, t, o', p, q. repeat split; auto.
    destruct (o_getsize o' p); [|discriminate].
    destruct (o_progress o'); [congruence | discriminate].
  - intros Hall Hnd Hord Hrep.
    unfold all_delivered in Hall.
    rewrite (imap_unordered_delivered w all_files done Hrange) in Hall.
    destruct (differs_from_seq (order done) O) as (j & i & Hn & Hi).
    { unfold order in *. now rewrite length_map. }
    unfold order in Hn. rewrite nth_error_map in Hn.
    destruct (nth_error done j) as [[[i' t] o]|] eqn:Hj; [|discriminate].
    cbn in Hn. injection Hn as ->. cbn [Nat.add] in Hi.
    destruct (Q j i t o Hj) as (q & Hq & Eq).
    destruct (reported all_files j o) as [sz|] eqn:Hr;
      [| now contradiction (Hrep j i t o Hj)].
    assert (Hr' := Hr). unfold reported in Hr'.
    destruct (nth_error all_files j) as [p|] eqn:Hp; [|discriminate].
    exists j, i, t, o, p, q, sz. repeat split; auto.
    + intros ->. apply Hi.
      rewrite NoDup_nth_error in Hnd. symmetry. apply Hnd; [| congruence].
      apply nth_error_Some. congruence.
    + destruct (o_getsize o p); [|discriminate].
      destruct (o_progress o); [congruence | discriminate].
    + specialize (P Hall j (extract w q t) o sz).
      cbn [Nat.add] in P. apply P; [| exact Hr].
      rewrite nth_error_map, Hj. cbn [option_map]. f_equal.
      assert (Hc : is_completed (delivered w all_files (i, t, o)) = true).
      { rewrite forallb_forall in Hall. apply Hall, in_map.
        eapply nth_error_In; exact Hj. }
      destruct (delivered w all_files (i, t, o)) as [r o0| |] eqn:Ed;
        try discriminate.
      apply delivered_completed in Ed as [-> ->]. now rewrite Eq.
Qed.

Lemma progress_size_by_backlog_position_witness :
  exists j i p q sz du det,
    nth_error [1%nat; 0%nat; 2%nat] j = Some i /\
    nth_error ["/data/a.jpg"; "/data/README"; "/data/.cache/b.mp4"] j = Some p /\
    nth_error ["/data/a.jpg"; "/data/README"; "/data/.cache/b.mp4"] i = Some q /\
    p <> q /\
    Sample.fine.(o_getsize) p = Some sz /\
    In (Progress (Z.of_nat j + 1) 3 sz du det)
       (stdout
          (snd (consume ["/data/a.jpg"; "/data/README"; "/data/.cache/b.mp4"]
                  (imap_unordered Sample.bare
                     ["/data/a.jpg"; "/data/README"; "/data/.cache/b.mp4"]
                     (completions [(1%nat, 0, Sample.fine);
                                   (0%nat, 0, Sample.fine);
                                   (2%nat, 0, Sample.fine)]))
                  (start_state Sample.cli [])))).
Proof.
  assert (R : Forall (fun d : nat * Z * oracle => (fst (fst d) < 3)%nat)
                [(1%nat, 0, Sample.fine); (0%nat, 0, Sample.fine);
                 (2%nat, 0, Sample.fine)])
    by (repeat constructor).
  destruct (progress_size_by_backlog_position
              Sample.bare ["/data/a.jpg"; "/data/README"; "/data/.cache/b.mp4"]
              Sample.cli [] _ R) as [_ H].
  destruct H as (j & i & t & o & p & q & sz & Hj & Hp & Hq & Hne & Hs & Hin).
  - apply audible_all_delivered. intros d. reflexivity.
  - repeat constructor; cbn; intuition discriminate.
  - discriminate.
  - intros [|[|[|j]]] i t o Hn; cbn in Hn;
      [ | | | destruct j; discriminate Hn ];
      injection Hn as <- <- <-; discriminate.
  - exists j, i, p, q, sz, (snd (fst (extract Sample.bare q t))),
      (filter (fun '(_, t) => 0 <? t) (snd (extract Sample.bare q t))).
    split; [| split; [exact Hp | split; [exact Hq | split; [exact Hne |
      split; [| exact Hin]]]]].
    + destruct j as [|[|[|j]]]; cbn in Hj;
        [ | | | destruct j; discriminate Hj ];
        injection Hj as <- <- <-; reflexivity.
    + destruct j as [|[|[|j]]]; cbn in Hj;
        [ | | | destruct j; discriminate Hj ];
        injection Hj as <- <- <-; exact Hs.
Defined.

(** ** Invariants of a run *)

Section Invariants.

Variable all_files : list string.

(** A property of the state that every turn of the loop and every line on
    stderr keep holds when the loop is left. *)
Lemma consume_invariant (P : state -> Prop) :
  (forall k o r s s', folded all_files k o r s s' -> P s -> P s') ->
  (forall d s, P s -> P (upd_stderr d s)) ->
  forall evs s k,
    processed_count s = Z.of_nat k ->
    P s ->
    P (snd (consume all_files evs s)).
Proof.
  intros Hstep Herr.
  induction evs as [|[r o | signum | b] evs IH]; intros s k Hk HP.
  - exact HP.
  - destruct (consume_step all_files r o evs s k Hk) as (s1 & F & Hk1 & ->).
    apply (IH s1 (S k) Hk1). eapply Hstep; eauto.
  - cbn. now apply Herr.
  - exact HP.
Qed.

Lemma written_fields o line s w s1 :
  written o line s w s1 ->
  processed_count s1 = processed_count s /\
  results_batch s1 = results_batch s /\
  success_count s1 = success_count s /\
  error_count s1 = error_count s /\
  db_requests s1 = (db_requests s ++ [results_batch s])%list /\
  (db_content s1 = db_content s \/
   db_content s1 = (db_content s ++ results_batch s)%list) /\
  (w = Ok tt -> db_content s1 = (db_content s ++ results_batch s)%list).
Proof.
  destruct 1; cbn; repeat split; auto; discriminate.
Qed.

End Invariants.

(** ** What the store holds *)

Lemma extends_written base o line s w s1 :
  written o line s w s1 -> extends base s -> extends base s1.
Proof.
  intros Hw (new & E & H).
  destruct (written_fields o line s w s1 Hw) as (_ & _ & _ & _ & Q & [C | C] & _).
  - exists new. rewrite C, Q. split; [exact E|].
    intros d Hd. destruct (H d Hd) as (b & Hb & Hdb).
    exists b. split; [apply in_or_app; now left | exact Hdb].
  - exists (new ++ results_batch s)%list. rewrite C, Q, E, app_assoc.
    split; [reflexivity|].
    intros d Hd. apply in_app_or in Hd as [Hd | Hd].
    + destruct (H d Hd) as (b & Hb & Hdb).
      exists b. split; [apply in_or_app; now left | exact Hdb].
    + exists (results_batch s). split; [| exact Hd].
      apply in_or_app. right. now left.
Qed.

Lemma extends_same base s s' :
  db_content s' = db_content s ->
  db_requests s' = db_requests s ->
  extends base s -> extends base s'.
Proof. unfold extends. intros -> ->. auto. Qed.

Lemma extends_folded all_files base k o r s s' :
  folded all_files k o r s s' -> extends base s -> extends base s'.
Proof.
  destruct 1 as [e Hr | size Hr Ht | size d Hr Hd Ht Hlt
                 | size d bytes w s1 Hr Hd Ht Hge Hw]; intros He.
  - destruct (pipe_broken all_files k o);
      now apply (extends_same base s).
  - now apply (extends_same base s).
  - now apply (extends_same base s).
  - assert (H1 : extends base s1).
    { apply (extends_written base _ _ _ _ _ Hw).
      now apply (extends_same base s). }
    destruct w; now apply (extends_same base s1).
Qed.

Lemma extends_flush_remaining all_files base o s :
  extends base s -> extends base (snd (flush_remaining all_files o s)).
Proof.
  intros He. destruct (results_batch s) as [|d b] eqn:Eb.
  - now rewrite flush_remaining_empty.
  - destruct (flush_remaining_spec all_files o s) as (bytes & r & s1 & Hw & ->);
      [congruence|].
    apply (extends_written base _ _ _ _ _ Hw) in He.
    destruct r; [exact He | now apply (extends_same base s1)].
Qed.

(** ** How a run ends *)

Lemma flush_remaining_returns all_files o s :
  exists s', flush_remaining all_files o s = (Ok tt, s').
Proof.
  destruct (results_batch s) as [|d b] eqn:Eb.
  - exists s. now apply flush_remaining_empty.
  - destruct (flush_remaining_spec all_files o s)
      as (bytes & r & s1 & _ & E); [congruence|].
    eexists. exact E.
Qed.

(** The body of the loop catches what it raises: the loop is left only by
    what the pool hands to it. *)
Lemma leaves_consume all_files evs :
  forall s k,
    processed_count s = Z.of_nat k ->
    fst (consume all_files evs s) = leaves evs.
Proof.
  induction evs as [|[r o | signum | b] evs IH]; intros s k Hk;
    try reflexivity.
  destruct (consume_step all_files r o evs s k Hk) as (s1 & _ & Hk1 & E).
  rewrite E. now apply (IH s1 (S k)).
Qed.

Lemma leaves_completed evs :
  forallb is_completed evs = true -> leaves evs = None.
Proof.
  induction evs as [|[r o | signum | b] evs IH]; intros H;
    try discriminate; [reflexivity | now apply IH].
Qed.

Lemma summary_ok h total s :
  summed h = true ->
  summary h total s =
  (Ok tt,
   upd_stderr (DocumentsInDb (len (db_content s)))
     (upd_stderr (FinalResults total (success_count s) (error_count s)) s)).
Proof.
  unfold summed, summary. intros H. apply andb_true_iff in H as [H1 H2].
  apply negb_true_iff in H1.
  unfold bind, get, modify, check_nonzero, lift, raise, ret. rewrite H1.
  now destruct (h_count_documents h) as [[]|].
Qed.

Lemma summary_raises h total s :
  summed h = false ->
  exists e,
    summary h total s =
    (Raise e,
     upd_stderr (FinalResults total (success_count s) (error_count s)) s).
Proof.
  unfold summed, summary. intros H.
  unfold bind, get, modify, check_nonzero, lift, raise, ret.
  destruct (h_total_ticks h =? 0); [now exists ZeroDivisionError|].
  destruct (h_count_documents h) as [[]|e]; [discriminate | now exists e].
Qed.

(** The summary touches neither the store nor the counters. *)
Lemma summary_fields h total s :
  let s' := snd (summary h total s) in
  db_content s' = db_content s /\
  db_requests s' = db_requests s /\
  success_count s' = success_count s /\
  error_count s' = error_count s /\
  processed_count s' = processed_count s.
Proof.
  destruct (summed h) eqn:H.
  - rewrite (summary_ok h total s H). now repeat split.
  - destruct (summary_raises h total s H) as [e ->]. now repeat split.
Qed.

(** The run whose results run out: the final flush, then the summary. *)
Lemma processing_orderly all_files evs fin h s0 k :
  processed_count s0 = Z.of_nat k ->
  leaves evs = None ->
  exists s2,
    flush_remaining all_files fin (snd (consume all_files evs s0)) =
      (Ok tt, s2) /\
    processing all_files evs fin h s0 =
    (interpreter_exit h (if summed h then 0 else 1),
     snd (summary h (len all_files) s2)).
Proof.
  intros Hk Hl.
  pose proof (leaves_consume all_files evs s0 k Hk) as E. rewrite Hl in E.
  unfold processing.
  destruct (consume all_files evs s0) as [out s1]. cbn [fst snd] in *.
  subst out.
  destruct (flush_remaining_returns all_files fin s1) as [s2 F].
  exists s2. split; [exact F|].
  erewrite bind_ok by exact F.
  destruct (summed h) eqn:H.
  - now rewrite (summary_ok h _ s2 H).
  - destruct (summary_raises h (len all_files) s2 H) as [e ->]. reflexivity.
Qed.

(** The status with which [processing] ends, from what left the loop. *)
Lemma processing_status all_files evs fin h s0 k :
  processed_count s0 = Z.of_nat k ->
  fst (processing all_files evs fin h s0) =
  interpreter_exit h
    match leaves evs with
    | Some (SystemExit code) => code
    | Some _ => 1
    | None => if summed h then 0 else 1
    end.
Proof.
  intros Hk. destruct (leaves evs) as [b|] eqn:Hl.
  - pose proof (leaves_consume all_files evs s0 k Hk) as E. rewrite Hl in E.
    unfold processing.
    destruct (consume all_files evs s0) as [out s1]. cbn [fst] in E.
    subst out. now destruct b.
  - destruct (processing_orderly all_files evs fin h s0 k Hk Hl)
      as (s2 & _ & ->).
    reflexivity.
Qed.

Lemma main_launched a n es store w sched fin h :
  launched a h = true ->
  let all_files := gather_files (root_directory a) (Dir n es) in
  main a (Some (Dir n es)) store w sched fin h =
  processing all_files (imap_unordered w all_files sched) fin h
             (start_state a store).
Proof.
  unfold launched, prepared, main. intros H.
  repeat (apply andb_true_iff in H as [H ?]).
  destruct (h_connect h); [| discriminate].
  destruct (h_gathering h); [| discriminate].
  destruct (h_found h); [| discriminate].
  destruct (h_pool h); [| discriminate].
  destruct (truncate a); [| reflexivity].
  destruct (h_delete_many h); [reflexivity | discriminate].
Qed.

Lemma consume_interrupted a n es store w done ev rest :
  let all_files := gather_files (root_directory a) (Dir n es) in
  all_delivered w all_files done ->
  consume all_files
          (imap_unordered w all_files (completions done ++ ev :: rest))
          (start_state a store) =
  consume all_files (imap_unordered w all_files (ev :: rest))
          (state_after a (Dir n es) store w done).
Proof.
  intros all_files Hd. rewrite imap_unordered_app.
  destruct (start_state_fresh a store) as (Hk & _).
  destruct (consume_completed all_files
              (imap_unordered w all_files (completions done))
              (start_state a store) O Hk Hd) as [_ H].
  now rewrite H.
Qed.

Lemma main_signal a n es store w done signum rest fin h :
  launched a h = true ->
  all_delivered w (gather_files (root_directory a) (Dir n es)) done ->
  main a (Some (Dir n es)) store w (completions done ++ Sig signum :: rest)
       fin h =
  (interpreter_exit h 0,
   upd_stderr SignalReceived (state_after a (Dir n es) store w done)).
Proof.
  intros Hl Hd. rewrite main_launched by exact Hl.
  unfold processing. rewrite consume_interrupted by exact Hd. reflexivity.
Qed.

Lemma main_fault a n es store w done b rest fin h :
  launched a h = true ->
  all_delivered w (gather_files (root_directory a) (Dir n es)) done ->
  exists code s,
    main a (Some (Dir n es)) store w (completions done ++ Fault b :: rest)
         fin h = (code, s) /\
    db_content s = db_content (state_after a (Dir n es) store w done) /\
    db_requests s = db_requests (state_after a (Dir n es) store w done).
Proof.
  intros Hl Hd. rewrite main_launched by exact Hl.
  unfold processing. rewrite consume_interrupted by exact Hd.
  cbn [imap_unordered flat_map app consume].
  destruct b as [e| |code]; do 2 eexists; repeat split.
Qed.

Lemma main_orderly a n es store w sched fin h :
  let all_files := gather_files (root_directory a) (Dir n es) in
  let evs := imap_unordered w all_files sched in
  launched a h = true ->
  leaves evs = None ->
  exists s2,
    flush_remaining all_files fin
      (snd (consume all_files evs (start_state a store))) = (Ok tt, s2) /\
    main a (Some (Dir n es)) store w sched fin h =
    (interpreter_exit h (if summed h then 0 else 1),
     snd (summary h (len all_files) s2)).
Proof.
  intros all_files evs Hl He. rewrite main_launched by exact Hl.
  destruct (start_state_fresh a store) as (Hk & _).
  apply (processing_orderly all_files evs fin h (start_state a store) O Hk He).
Qed.

(** C2. The run a termination signal ends: whatever results were folded
    before it, the handler's [sys.exit(0)] is what ends the process, with
    status 0, the status of a completed run (120 only if the interpreter
    cannot flush stdout on its way out). The run is one whose pool was
    opened and whose workers returned their results up to the signal. *)
Theorem signal_exit_status :
  forall (a : args) (n : string) (es : list entry) (store : list dict)
         (w : world) (done : list (nat * Z * oracle)) (signum : Z)
         (rest : list task_event) (fin : oracle) (h : host),
    launched a h = true ->
    all_delivered w (gather_files (root_directory a) (Dir n es)) done ->
    fst (main a (Some (Dir n es)) store w
              (completions done ++ Sig signum :: rest) fin h)
    = interpreter_exit h 0.
Proof.
  intros a n es store w done signum rest fin h Hl Hd.
  now rewrite main_signal.
Qed.

Lemma signal_exit_status_witness :
  fst (main Sample.cli (Some Sample.tree) [] Sample.bare
            (completions [(1%nat, 0, Sample.fine); (0%nat, 0, Sample.fine)]
             ++ [Sig SIGTERM])
            Sample.fine Sample.calm) = 0.
Proof.
  apply (signal_exit_status
           Sample.cli "data"
           [File "a.jpg"; File ".DS_Store"; File "README";
            Dir ".cache" [File "b.mp4"; File ".hidden.jpg"]]
           [] Sample.bare
           [(1%nat, 0, Sample.fine); (0%nat, 0, Sample.fine)]
           SIGTERM [] Sample.fine Sample.calm);
    reflexivity.
Defined.

Lemma NoDup_app_apart {A} (l1 l2 : list A) (x : A) :
  NoDup (l1 ++ l2) -> In x l1 -> In x l2 -> False.
Proof.
  induction l1 as [|y l1 IH]; cbn; intros H H1 H2; [contradiction|].
  inversion H as [|? ? Hn Hd]; subst. destruct H1 as [-> | H1].
  - apply Hn, in_or_app. now right.
  - now apply IH.
Qed.

(** C3. When a termination signal arrives, fewer than twenty documents are
    in the batch, and they are the last of the documents accumulated: no
    [insert_many] call has carried them, the store holding what it held at
    the start followed by documents of the calls made. The run then ends
    without the final flush: the store holds what it held when the signal
    arrived and has received no further call. So when the documents
    received are distinct, a buffered document is not in the store at the
    end, unless the store held it before the run and was not truncated.
    The same holds when an
    exception from the pool ends the loop. Only the run whose results run
    out performs the final flush: one call with the batch when it is not
    empty, which a store that accepts it adds to its content. *)
Theorem signal_loses_buffered_batch :
  forall (a : args) (n : string) (es : list entry) (store : list dict)
         (w : world) (done : list (nat * Z * oracle)) (signum : Z)
         (b : base_exception) (rest : list task_event) (fin : oracle)
         (h : host),
    let fs := Dir n es in
    let all_files := gather_files (root_directory a) fs in
    launched a h = true ->
    all_delivered w all_files done ->
    let docs :=
      accumulated all_files 0 (imap_unordered w all_files (completions done)) in
    let s0 := start_state a store in
    let s1 := state_after a fs store w done in
    let interrupted :=
      snd (main a (Some fs) store w (completions done ++ Sig signum :: rest)
                fin h) in
    let faulted :=
      snd (main a (Some fs) store w (completions done ++ Fault b :: rest)
                fin h) in
    let orderly := snd (main a (Some fs) store w (completions done) fin h) in
    len (results_batch s1) < BATCH_SIZE /\
    (List.concat (db_requests s1) ++ results_batch s1)%list = docs /\
    extends (db_content s0) s1 /\
    db_content interrupted = db_content s1 /\
    db_requests interrupted = db_requests s1 /\
    (NoDup docs ->
     forall d, In d (results_batch s1) ->
               truncate a = true \/ ~ In d store ->
               ~ In d (db_content interrupted)) /\
    db_content faulted = db_content s1 /\
    db_requests faulted = db_requests s1 /\
    db_requests orderly =
      (db_requests s1 ++
       match results_batch s1 with [] => [] | _ => [results_batch s1] end)%list /\
    (o_insert_many fin = Ok tt ->
     db_content orderly = (db_content s1 ++ results_batch s1)%list).
Proof.
  intros a n es store w done signum b rest fin h fs all_files Hl Hd docs s0 s1
         interrupted faulted orderly.
  destruct (start_state_fresh a store) as (Hk & Hb & Hq & _).
  destruct (consume_batches all_files
              (imap_unordered w all_files (completions done))
              (start_state a store) O Hk) as (B & L & _).
  { rewrite Hb. reflexivity. }
  { rewrite Hq. constructor. }
  rewrite Hb, Hq in B. cbn [List.concat app] in B.
  fold s1 in B, L. fold docs in B.
  assert (X : extends (db_content s0) s1).
  { apply (consume_invariant all_files (extends (db_content s0))
             (extends_folded all_files (db_content s0))
             (fun d s H =>
                extends_same (db_content s0) s (upd_stderr d s)
                             eq_refl eq_refl H)) with (k := O);
      [exact Hk|].
    exists []. rewrite app_nil_r. split; [reflexivity | intros d []]. }
  assert (I : interrupted = upd_stderr SignalReceived s1)
    by (unfold interrupted, fs; now rewrite main_signal).
  split; [exact L|]. split; [exact B|]. split; [exact X|].
  split; [now rewrite I|]. split; [now rewrite I|].
  split.
  { intros Hnd d Hin Hst. rewrite I. cbn [db_content upd_stderr].
    assert (Hs0 : ~ In d (db_content s0)).
    { unfold s0, start_state. destruct (truncate a); cbn; [intros []|].
      destruct Hst as [Ht | Hst]; [discriminate Ht | exact Hst]. }
    destruct X as (new & E & Hnew). rewrite E. intros Hd'.
    apply in_app_or in Hd' as [Hd' | Hd']; [now apply Hs0|].
    destruct (Hnew d Hd') as (req & Hreq & Hdr).
    rewrite <- B in Hnd.
    apply (NoDup_app_apart _ _ d Hnd); [| exact Hin].
    apply in_concat. now exists req. }
  destruct (main_fault a n es store w done b rest fin h Hl Hd)
    as (code & s & E & F1 & F2).
  split; [unfold faulted, fs; now rewrite E|].
  split; [unfold faulted, fs; now rewrite E|].
  destruct (main_orderly a n es store w (completions done) fin h Hl
              (leaves_completed _ Hd)) as (s2 & E2 & M).
  unfold orderly, fs. rewrite M. cbn [snd].
  destruct (summary_fields h (len (gather_files (root_directory a) (Dir n es)))
                           s2) as (-> & -> & _).
  change (flush_remaining all_files fin s1 = (Ok tt, s2)) in E2.
  destruct (results_batch s1) as [|d bt] eqn:Eb.
  - rewrite flush_remaining_empty in E2 by exact Eb.
    injection E2 as <-. rewrite !app_nil_r. now split.
  - destruct (flush_remaining_spec all_files fin s1)
      as (bytes & r & s3 & Hw & E3); [congruence|].
    rewrite E3 in E2. injection E2 as <-. rewrite <- Eb.
    split.
    + destruct Hw; reflexivity.
    + intros Hok. destruct Hw; try congruence; reflexivity.
Qed.

Lemma shelves_distinct :
  let all_files := gather_files "/data" (Sample.shelves 15) in
  NoDup (accumulated all_files 0
           (imap_unordered Sample.bare all_files
                           (completions (Sample.in_order 15)))).
Proof.
  apply (NoDup_map_inv (dict_get "file_path")). vm_compute.
  repeat constructor; cbn; intuition discriminate.
Qed.

Lemma signal_loses_buffered_batch_witness :
  let s1 := state_after Sample.cli (Sample.shelves 15) [] Sample.bare
                        (Sample.in_order 15) in
  let final := snd (main Sample.cli (Some (Sample.shelves 15)) [] Sample.bare
                         (completions (Sample.in_order 15) ++ [Sig SIGINT])
                         Sample.fine Sample.calm) in
  len (results_batch s1) = 15 /\
  db_content final = [] /\
  forall d, In d (results_batch s1) -> ~ In d (db_content final).
Proof.
  intros s1 final.
  destruct (signal_loses_buffered_batch
              Sample.cli "data"
              (map (fun d => Dir d [File "c.txt"]) (Sample.names 15))
              [] Sample.bare
              (Sample.in_order 15) SIGINT KeyboardInterrupt [] Sample.fine
              Sample.calm eq_refl)
    as (_ & _ & _ & H4 & _ & H6 & _).
  { apply audible_all_delivered. intros d. reflexivity. }
  split; [vm_compute; reflexivity|].
  split; [etransitivity; [exact H4 | vm_compute; reflexivity]|].
  intros d Hd. apply (H6 shelves_distinct d Hd).
  right. intros [].
Defined.



(** The scenario of the specification: fifteen documents are buffered when
    [SIGINT] arrives. The store stays empty and the exit status is 0. *)
Example interrupt_after_fifteen :
  main Sample.cli (Some (Sample.shelves 15)) [] Sample.bare
       (completions (Sample.in_order 15) ++ [Sig SIGINT]) Sample.fine
       Sample.calm
  = (0, upd_stderr SignalReceived
          (state_after Sample.cli (Sample.shelves 15) [] Sample.bare
                       (Sample.in_order 15))) /\
  db_content (state_after Sample.cli (Sample.shelves 15) [] Sample.bare
                          (Sample.in_order 15)) = [] /\
  success_count (state_after Sample.cli (Sample.shelves 15) [] Sample.bare
                             (Sample.in_order 15)) = 15.
Proof. vm_compute. repeat split. Qed.

(** The backlog [a.jpg, README, .cache/b.mp4] finished out of order: three
    processed, two documents in the store, one failure counted for the file
    without a content type. *)
Example small_run :
  let s := snd (main Sample.cli (Some Sample.tree) [] Sample.bare
                     (completions [(1%nat, 0, Sample.fine);
                                   (0%nat, 0, Sample.fine);
                                   (2%nat, 0, Sample.fine)])
                     Sample.fine Sample.calm) in
  processed_count s = 3 /\ success_count s = 2 /\ error_count s = 1 /\
  len (db_content s) = 2.
Proof. vm_compute. repeat split. Qed.

(** * Further properties of the loader *)

(** ** What the backlog holds *)

Lemma walk_reaches_inv e :
  forall top root dirs files,
    In (root, dirs, files) (walk top e) ->
    exists es,
      reaches top e root es /\ dirs = dirnames es /\ files = filenames es.
Proof.
  induction e as [n | n es IH] using entry_induction;
    intros top root dirs files Hin.
  - contradiction.
  - cbn [walk] in Hin. destruct Hin as [E | Hin].
    + injection E as <- <- <-. exists es. repeat split. constructor.
    + apply in_flat_map in Hin as [c [Hc Hin]].
      destruct c as [m | m sub]; [contradiction|].
      rewrite Forall_forall in IH.
      destruct (IH _ Hc _ _ _ _ Hin) as (es' & R & -> & ->).
      exists es'. repeat split. eapply reaches_sub; eauto.
Qed.

(** X1. Every path of the backlog is the path of a file that lies in the
    tree below the root, in a directory the walk reaches, and whose own
    name does not begin with ['.']; directories are never enqueued, and
    what lies at the root when it is not a directory gives an empty
    backlog. *)
Theorem gather_files_sound :
  forall top fs p,
    In p (gather_files top fs) ->
    exists root es file,
      reaches top fs root es /\
      In (File file) es /\
      Str.startswith file "." = false /\
      p = Path.join root file /\
      (plain_names fs = true -> Path.basename p = file) /\
      (forall n, fs <> File n).
Proof.
  intros top fs p H. unfold gather_files in H.
  apply in_flat_map in H as [[[root dirs] files] [Hw H]].
  apply in_flat_map in H as [file [Hf H]].
  destruct (Str.startswith file ".") eqn:E; simpl in H; [contradiction|].
  destruct H as [<- | []].
  destruct (walk_reaches_inv fs top root dirs files Hw) as (es & R & -> & ->).
  exists root, es, file. repeat split; auto.
  - now apply in_filenames_inv.
  - intros Hp. apply basename_join. eapply walk_plain; eauto.
  - intros n ->. inversion R.
Qed.

Lemma gather_files_sound_witness :
  exists root es file,
    reaches "/data" Sample.tree root es /\
    In (File file) es /\
    "/data/.cache/b.mp4" = Path.join root file /\
    Path.basename "/data/.cache/b.mp4" = file.
Proof.
  destruct (gather_files_sound "/data" Sample.tree "/data/.cache/b.mp4")
    as (root & es & file & R & Hin & _ & E & B & _).
  - cbn. do 2 right. now left.
  - exists root, es, file. repeat split; auto.
Defined.

(** ** The exit status *)

(** X2. The exit status of [main], from how the run goes. It is 1 when the
    root is not a directory, when the client cannot be built and when
    [delete_many] fails: nothing has been written to stdout by then.
    From there on it is 120 whenever the interpreter cannot flush stdout
    on its way out, and otherwise: 1 when a line of [gather_files] cannot
    be written or the pool cannot be started; when the loop is left by
    what the pool hands to it, 0 for a termination signal, the code of
    a [SystemExit], 1 for any other exception, one that left a worker
    included; and when the results run out, 0 if the summary goes through
    and 1 if the processing took no time or [count_documents] raises. The
    files, reports and batch writes that failed inside the loop do not
    bear on it: the body of the loop and the final flush raise nothing. *)
Theorem main_exit_status :
  forall (a : args) (fs : option entry) (store : list dict) (w : world)
         (sched : list task_event) (fin : oracle) (h : host),
    fst (main a fs store w sched fin h) =
    exit_status a fs h (pool_events a fs w sched).
Proof.
  intros a fs store w sched fin h.
  destruct fs as [[n | n es]|]; try reflexivity.
  unfold exit_status. cbn [is_dir andb pool_events].
  destruct (launched a h) eqn:L.
  - assert (P : prepared a h = true).
    { unfold launched in L.
      do 3 (apply andb_true_iff in L as [L _]). exact L. }
    rewrite P, (main_launched a n es store w sched fin h L).
    cbn [negb]. destruct (start_state_fresh a store) as (Hk & _).
    apply (processing_status _ _ fin h (start_state a store) O Hk).
  - unfold launched, prepared in *. unfold main.
    destruct (h_connect h); [| reflexivity].
    destruct (truncate a).
    + destruct (h_delete_many h); [| reflexivity].
      destruct (h_gathering h); [| reflexivity].
      destruct (h_found h); [| reflexivity].
      destruct (h_pool h); [discriminate L | reflexivity].
    + destruct (h_gathering h); [| reflexivity].
      destruct (h_found h); [| reflexivity].
      destruct (h_pool h); [discriminate L | reflexivity].
Qed.

(** ** The store only grows *)

Lemma processing_extends all_files base evs fin h s0 k :
  processed_count s0 = Z.of_nat k ->
  extends base s0 ->
  extends base (snd (processing all_files evs fin h s0)).
Proof.
  intros Hk H0.
  pose proof (consume_invariant all_files (extends base)
                (extends_folded all_files base)
                (fun d s H => extends_same base s (upd_stderr d s)
                                           eq_refl eq_refl H)
                evs s0 k Hk H0) as H1.
  unfold processing.
  destruct (consume all_files evs s0) as [[[e| |code]|] s1];
    cbv beta iota; cbn [snd] in *; try exact H1.
  pose proof (extends_flush_remaining all_files base fin s1 H1) as H2.
  unfold bind.
  destruct (flush_remaining all_files fin s1) as [[[]|e] s2];
    cbn [snd] in H2.
  - destruct (summary_fields h (len all_files) s2) as (E1 & E2 & _).
    destruct (summary h (len all_files) s2) as [[[]|e] s3];
      cbn [snd] in *; now apply (extends_same base s2).
  - exact H2.
Qed.

(** X3. [main] never removes or reorders what the store holds, except by
    [--truncate]. When the root is not a directory, the client cannot be
    built or [delete_many] fails, the store is left as it was and receives
    no call. Otherwise the store ends as its former content (nothing,
    under [--truncate]) followed by documents that each came in one of the
    [insert_many] calls of the run. *)
Theorem store_only_grows :
  forall (a : args) (fs : option entry) (store : list dict) (w : world)
         (sched : list task_event) (fin : oracle) (h : host),
    let final := snd (main a fs store w sched fin h) in
    if is_dir fs && prepared a h then
      extends (if truncate a then [] else store) final
    else
      db_content final = store /\ db_requests final = [].
Proof.
  intros a fs store w sched fin h final.
  destruct fs as [[n | n es]|]; cbn [is_dir andb]; try (now split).
  set (base := if truncate a then [] else store).
  destruct (start_state_fresh a store) as (Hk & _ & Hq & _).
  assert (H0 : extends base (start_state a store)).
  { exists []. rewrite app_nil_r. split; [| intros d []].
    unfold base, start_state. now destruct (truncate a). }
  unfold final, prepared, main.
  destruct (h_connect h); cbn [is_ok andb]; [| now split].
  assert (G : extends base
                (snd match h_gathering h with
                     | Ok _ =>
                         match h_found h with
                         | Ok _ =>
                             match h_pool h with
                             | Ok _ =>
                                 processing
                                   (gather_files (root_directory a) (Dir n es))
                                   (imap_unordered w
                                      (gather_files (root_directory a)
                                                    (Dir n es)) sched)
                                   fin h (start_state a store)
                             | Raise _ =>
                                 (interpreter_exit h 1, start_state a store)
                             end
                         | Raise _ => (interpreter_exit h 1, start_state a store)
                         end
                     | Raise _ => (interpreter_exit h 1, start_state a store)
                     end)).
  { destruct (h_gathering h); [| exact H0].
    destruct (h_found h); [| exact H0].
    destruct (h_pool h); [| exact H0].
    now apply (processing_extends _ base _ fin h _ O). }
  unfold base in *. destruct (truncate a); cbn [negb orb].
  - destruct (h_delete_many h); cbn [is_ok]; [exact G | now split].
  - exact G.
Qed.

(** ** What the counters count *)

Section Counters.

Variable all_files : list string.





Lemma len_snoc {A} (l : list A) (x : A) : len (l ++ [x]) = len l + 1.
Proof. rewrite len_app. reflexivity. Qed.

Ltac fields :=
  cbn [processed_count total_processing_time results_batch success_count
       error_count db_content db_requests stdout stderr
       upd_processed upd_time upd_batch upd_success upd_error upd_db
       upd_stdout upd_stderr counted demote].

Lemma accounted_folded c0 k o r s s' :
  folded all_files k o r s s' -> accounted c0 s -> accounted c0 s'.
Proof.
  unfold accounted.
  assert (L : 0 <= len (results_batch s)) by (unfold len; lia).
  destruct 1 as [e Hr | size Hr Ht | size d Hr Hd Ht Hlt
                 | size d bytes w s1 Hr Hd Ht Hge Hw]; intros (A1 & A2 & A3).
  - destruct (pipe_broken all_files k o); fields; lia.
  - fields. lia.
  - fields. rewrite len_snoc. lia.
  - destruct Hw; fields; rewrite ?len_app;
      change (len [d]) with 1; change (len (@nil dict)) with 0; lia.
Qed.

Lemma accounted_flush_remaining c0 o s :
  accounted c0 s ->
  let s' := snd (flush_remaining all_files o s) in
  0 <= success_count s' /\
  success_count s' + c0 <= len (db_content s') /\
  error_count s <= error_count s'.
Proof.
  intros (A1 & A2 & A3). cbv zeta.
  assert (L : 0 <= len (results_batch s)) by (unfold len; lia).
  destruct (results_batch s) as [|d b] eqn:Eb.
  - rewrite flush_remaining_empty by exact Eb. cbn [snd].
    change (len (@nil dict)) with 0 in *. lia.
  - rewrite <- Eb in *.
    destruct (flush_remaining_spec all_files o s) as (bytes & r & s1 & Hw & ->);
      [congruence|].
    destruct Hw; cbn [snd]; fields; rewrite ?len_app; lia.
Qed.

End Counters.



Lemma run_bounds :
  forall (all_files : list string) (a : args) (store : list dict)
         (evs : list event) (fin : oracle),
    let s0 := start_state a store in
    let s1 := snd (consume all_files evs s0) in
    let s2 := snd (flush_remaining all_files fin s1) in
    len (results_batch s1) <= success_count s1 /\
    success_count s1 - len (results_batch s1) + len (db_content s0)
      <= len (db_content s1) /\
    0 <= success_count s2 /\
    success_count s2 + len (db_content s0) <= len (db_content s2) /\
    0 <= error_count s1 <= error_count s2.
Proof.
  intros all_files a store evs fin s0 s1 s2.
  destruct (start_state_fresh a store) as (Hk & Hb & _).
  assert (A0 : accounted (len (db_content s0)) s0).
  { unfold accounted, s0. rewrite Hb.
    unfold start_state. destruct (truncate a); cbn; lia. }
  assert (A1 : accounted (len (db_content s0)) s1).
  { apply (consume_invariant all_files (accounted (len (db_content s0)))
             (accounted_folded all_files (len (db_content s0))))
      with (k := O); auto. }
  destruct (accounted_flush_remaining all_files _ fin s1 A1) as (B1 & B2 & B3).
  fold s2 in B1, B2, B3.
  destruct A1 as (A1 & A2 & A3).
  repeat split; auto.
Qed.

(** X5. The success counter against the store. At every point of the loop
    the successes counted are the buffered documents plus documents the
    store took during the run, so the counter is never below the size of
    the batch; after the final flush it is not negative and not above the
    number of documents the run added to the store. The failure counter is
    never negative and the final flush does not lower it. *)
Theorem successes_are_buffered_or_stored :
  forall (all_files : list string) (a : args) (store : list dict)
         (evs : list event) (fin : oracle),
    let s0 := start_state a store in
    let s1 := snd (consume all_files evs s0) in
    let s2 := snd (flush_remaining all_files fin s1) in
    len (results_batch s1) <= success_count s1 /\
    success_count s1 - len (results_batch s1) + len (db_content s0)
      <= len (db_content s1) /\
    0 <= success_count s2 /\
    success_count s2 + len (db_content s0) <= len (db_content s2) /\
    0 <= error_count s1 <= error_count s2.
Proof. exact run_bounds. Qed.

(** ** A run in which nothing fails *)

Section Smooth.

Variable all_files : list string.

Lemma sum_sizes_smooth o batch s :
  (forall p, o_getsize o p <> None) ->
  Forall has_path batch ->
  exists n, sum_sizes o batch s = (Ok n, s).
Proof.
  intros Hg. induction 1 as [|d batch [p Hp] _ [n IH]]; cbn [sum_sizes].
  - now exists 0.
  - unfold bind, doc_file_path, getsize. rewrite Hp. cbn.
    destruct (o_getsize o p) as [m|] eqn:E; [| now contradiction (Hg p)].
    cbn. rewrite IH. eexists. reflexivity.
Qed.

Lemma write_batch_smooth o mk s :
  smooth o ->
  Forall has_path (results_batch s) ->
  (len all_files =? 0) = false ->
  exists bytes,
    write_batch all_files o mk s =
    (Ok tt,
     upd_stdout (mk (len (results_batch s)) bytes (o_insert_ticks o)
                    (processed_count s) (len all_files))
       (upd_db (fun c => (c ++ results_batch s)%list) (results_batch s) s)).
Proof.
  intros (Hp & Hi & Ht & Hc & Hg) Hb Hn.
  unfold write_batch. erewrite bind_ok by reflexivity.
  unfold insert_many. rewrite Hi.
  erewrite bind_ok by reflexivity.
  unfold check_nonzero at 1.
  apply Z.eqb_neq in Ht. rewrite Ht.
  erewrite bind_ok by reflexivity.
  destruct (sum_sizes_smooth o (results_batch s)
              (upd_db (fun c => (c ++ results_batch s)%list)
                      (results_batch s) s) Hg Hb) as [bytes E].
  erewrite bind_ok by exact E.
  unfold check_nonzero. rewrite Hn.
  erewrite bind_ok by reflexivity.
  unfold print, lift, bind. rewrite Hc.
  exists bytes. reflexivity.
Qed.

Lemma reported_smooth o k :
  smooth o -> (k < List.length all_files)%nat ->
  exists size, reported all_files k o = Some size /\
               (len all_files =? 0) = false.
Proof.
  intros (Hp & _ & _ & _ & Hg) Hk. unfold reported.
  destruct (nth_error all_files k) as [p|] eqn:Hn.
  - destruct (o_getsize o p) as [n|] eqn:E; [| now contradiction (Hg p)].
    rewrite Hp. exists n. split; [reflexivity|].
    eapply nth_error_len_nonzero; eauto.
  - apply nth_error_None in Hn. lia.
Qed.

Lemma fold_result_smooth o r s k :
  processed_count s = Z.of_nat k ->
  (k < List.length all_files)%nat ->
  smooth o ->
  Forall has_path (docs_of r) ->
  Forall has_path (results_batch s) ->
  exists s',
    fold_result all_files o r s = (Ok tt, s') /\
    (db_content s' ++ results_batch s' =
     db_content s ++ results_batch s ++ docs_of r)%list /\
    success_count s' = success_count s + len (docs_of r) /\
    error_count s' = error_count s + 1 - len (docs_of r) /\
    Forall has_path (results_batch s').
Proof.
  intros Hk Hlt Hs Hd Hb. destruct r as [[result duration] timings].
  destruct (reported_smooth o k Hs Hlt) as (size & Hr & Hn).
  rewrite (fold_result_reported all_files o result duration timings s k size Hk Hr).
  unfold docs_of in *. cbn [fst snd] in *.
  destruct result as [[|kv d]|]; cbn [truthy] in *.
  - eexists. split; [reflexivity|]. cbn. rewrite app_nil_r.
    repeat split; auto; lia.
  - cbv zeta. set (s3 := upd_success _ _).
    assert (Hb3 : Forall has_path (results_batch s3)).
    { unfold s3. cbn. apply Forall_app. now split. }
    destruct (BATCH_SIZE <=? len (results_batch s3)).
    + unfold flush_batch.
      destruct (write_batch_smooth o Committed s3 Hs Hb3 Hn) as [bytes E].
      erewrite try_except_ok by (erewrite bind_ok by exact E; reflexivity).
      eexists. split; [reflexivity|]. unfold s3. cbn.
      rewrite app_nil_r.
      repeat split; auto; lia.
    + eexists. split; [reflexivity|]. unfold s3. cbn.
      repeat split; auto; lia.
  - eexists. split; [reflexivity|]. cbn. rewrite app_nil_r.
    repeat split; auto; lia.
Qed.

Lemma consume_smooth evs :
  forall s k,
    processed_count s = Z.of_nat k ->
    (k + List.length evs <= List.length all_files)%nat ->
    Forall clean evs ->
    Forall has_path (results_batch s) ->
    let s' := snd (consume all_files evs s) in
    (db_content s' ++ results_batch s' =
     db_content s ++ results_batch s ++ documents evs)%list /\
    success_count s' = success_count s + len (documents evs) /\
    error_count s' = error_count s + len evs - len (documents evs) /\
    processed_count s' = processed_count s + len evs /\
    Forall has_path (results_batch s').
Proof.
  induction evs as [|ev evs IH]; intros s k Hk Hlen Hc Hb; cbv zeta.
  - cbn. rewrite app_nil_r. repeat split; auto; lia.
  - inversion Hc as [|? ? Hev Hrest]; subst.
    destruct ev as [r o | signum | b]; try contradiction.
    destruct Hev as [Hs Hd]. cbn [List.length] in Hlen.
    destruct (fold_result_smooth o r s k Hk) as (s1 & E & C1 & S1 & E1 & B1);
      auto; [lia|].
    assert (Hk1 : processed_count s1 = Z.of_nat (S k)).
    { destruct (fold_result_folded all_files o r s k Hk) as (s1' & E' & F).
      rewrite E in E'. injection E' as <-.
      rewrite (folded_processed _ _ _ _ _ _ F), Hk. lia. }
    destruct (IH s1 (S k) Hk1) as (C2 & S2 & E2 & P2 & B2); auto; [lia|].
    cbn [consume]. rewrite E.
    unfold documents in *. cbn [flat_map]. rewrite len_app.
    assert (L : len (Completed r o :: evs) = 1 + len evs).
    { unfold len. cbn [List.length]. lia. }
    split; [rewrite C2, app_assoc, C1, <- !app_assoc; reflexivity|].
    repeat split; auto; try lia.
Qed.

End Smooth.

Lemma smooth_run :
  forall (all_files : list string) (a : args) (store : list dict)
         (evs : list event) (fin : oracle),
    Forall clean evs ->
    smooth fin ->
    (List.length evs <= List.length all_files)%nat ->
    let s0 := start_state a store in
    let s2 := snd (flush_remaining all_files fin
                     (snd (consume all_files evs s0))) in
    db_content s2 = (db_content s0 ++ documents evs)%list /\
    success_count s2 = len (documents evs) /\
    error_count s2 = len evs - len (documents evs) /\
    processed_count s2 = len evs /\
    len (db_content s2) = len (db_content s0) + success_count s2.
Proof.
  intros all_files a store evs fin Hc Hf Hlen s0 s2.
  destruct (start_state_fresh a store) as (Hk & Hb & _).
  assert (Z0 : processed_count s0 = 0 /\ success_count s0 = 0 /\
               error_count s0 = 0)
    by (unfold s0, start_state; destruct (truncate a); repeat split).
  destruct Z0 as (P0 & S0 & E0).
  destruct (consume_smooth all_files evs s0 O Hk) as (C1 & S1 & E1 & P1 & B1);
    auto.
  { unfold s0. rewrite Hb. constructor. }
  fold s0 in Hb. rewrite Hb in C1. cbn [app] in C1.
  set (s1 := snd (consume all_files evs s0)) in *.
  assert (F : db_content s2 = (db_content s1 ++ results_batch s1)%list /\
              success_count s2 = success_count s1 /\
              error_count s2 = error_count s1 /\
              processed_count s2 = processed_count s1).
  { unfold s2. destruct (results_batch s1) as [|d b] eqn:Eb.
    - rewrite flush_remaining_empty by exact Eb. rewrite app_nil_r.
      now repeat split.
    - assert (Hn : (len all_files =? 0) = false).
      { destruct evs as [|ev evs].
        - unfold s1 in Eb. cbn in Eb. fold s0 in Eb. congruence.
        - apply Z.eqb_neq. unfold len. cbn [List.length] in Hlen. lia. }
      unfold flush_remaining. erewrite bind_ok by reflexivity. rewrite Eb.
      rewrite <- Eb in *.
      destruct (write_batch_smooth all_files fin CommittedFinal s1 Hf B1 Hn)
        as [bytes E].
      erewrite try_except_ok by exact E. cbn. now repeat split. }
  destruct F as (F1 & F2 & F3 & F4).
  rewrite F1, F2, F3, F4, C1, S1, E1, P1, S0, E0, P0, len_app.
  repeat split; lia.
Qed.

(** X6. A run in which nothing fails. When every result has its backlog
    position, every report and every write goes through and every document
    carries its path, then after the final flush the store holds what it
    held at the start followed by the documents received, in the order
    received: the success counter is their number, which is the number of
    documents the store gained, the failure counter is the number of
    results that were [None] or empty, and every result is in one of the
    two. *)
Theorem run_without_failures :
  forall (all_files : list string) (a : args) (store : list dict)
         (evs : list event) (fin : oracle),
    Forall clean evs ->
    smooth fin ->
    (List.length evs <= List.length all_files)%nat ->
    let s0 := start_state a store in
    let s2 := snd (flush_remaining all_files fin
                     (snd (consume all_files evs s0))) in
    db_content s2 = (db_content s0 ++ documents evs)%list /\
    success_count s2 = len (documents evs) /\
    error_count s2 = len evs - len (documents evs) /\
    processed_count s2 = len evs /\
    len (db_content s2) = len (db_content s0) + success_count s2.
Proof. exact smooth_run. Qed.

Lemma run_without_failures_witness :
  let s2 := snd (flush_remaining ["/data/a.jpg"; "/data/README"] Sample.fine
                   (snd (consume ["/data/a.jpg"; "/data/README"]
                           [Completed (Some (Sample.doc_of "/data/a.jpg"), 7, [])
                                      Sample.fine;
                            Completed (None, 0, []) Sample.fine]
                           (start_state Sample.cli [])))) in
  db_content s2 = [Sample.doc_of "/data/a.jpg"] /\
  success_count s2 = 1 /\ error_count s2 = 1.
Proof.
  assert (S : smooth Sample.fine)
    by (repeat split; discriminate).
  assert (C : Forall clean
                [Completed (Some (Sample.doc_of "/data/a.jpg"), 7, [])
                           Sample.fine;
                 Completed (None, 0, []) Sample.fine]).
  { repeat constructor; try discriminate.
    exists "/data/a.jpg". reflexivity. }
  destruct (run_without_failures
              ["/data/a.jpg"; "/data/README"] Sample.cli [] _ Sample.fine
              C S (le_n 2)) as (H1 & H2 & H3 & _).
  repeat split; assumption.
Defined.

(** ** When [stat] fails *)

(** X7. When [stat] raises for a file that passes the two filters, the
    inner [try] is left before anything is stored: the attribute probes are
    not run. When the line about it is written to stderr, the document
    returned has no path, no content type, no base and no extended
    attributes: it holds the media field alone for a video or an image, and
    is the empty dictionary, which the loop takes for a failure, for any
    other type; the timings hold the media timing alone. When that line
    cannot be written, the outer handler takes over and no document is
    returned at all. *)
Theorem stat_failure_leaves_media_only :
  forall (w : world) (p ct : string) (e : exception) (f : frame),
    Str.startswith (Path.basename p) "." = false ->
    known_type w p ct ->
    w_stat w p = Raise e ->
    match w_stderr w (BaseMetadataError p e) with
    | Ok _ =>
        exists duration f',
          process_file w p f =
            (Ok (Some (media_fields w p ct), duration, media_timing w p ct),
             f') /\
          dict_get "file_path" (media_fields w p ct) = None /\
          dict_get "content_type" (media_fields w p ct) = None /\
          dict_get "base_attributes" (media_fields w p ct) = None /\
          dict_get "extended_attributes" (media_fields w p ct) = None /\
          truthy (Some (media_fields w p ct)) =
            (Str.startswith ct "video/" || Str.startswith ct "image/")%bool /\
          err f' = (err f ++ [BaseMetadataError p e])%list
    | Raise e' =>
        match process_file w p f with
        | (Ok r, _) => r = (None, w_stat_ticks w p, [])
        | (Raise e'', _) => w_stderr w (ProcessFailed p e') = Raise e''
        end
    end.
Proof.
  intros w p ct e f Hh Hk Hst.
  destruct (w_stderr w (BaseMetadataError p e)) as [[]|e'] eqn:Hw.
  - destruct (attempt_stat_raises w p ct e (clock f) f Hh Hk Hst Hw)
      as (du & f' & E & Herr).
    exists du, f'. split; [now apply process_file_ok|].
    split; [| split; [| split; [| split; [| split; [| exact Herr]]]]];
      unfold media_fields;
      destruct (Str.startswith ct "video/");
      try destruct (Str.startswith ct "image/"); reflexivity.
  - pose proof (attempt_stat_raises_unheard w p ct e e' (clock f) f
                  Hh Hk Hst Hw) as E.
    destruct (w_stderr w (ProcessFailed p e')) as [[]|e''] eqn:Hf.
    + rewrite (process_file_caught w p f e' _ E Hf). cbn [tick clock].
      now rewrite Z.add_simpl_l.
    + now rewrite (process_file_escapes w p f e' _ e'' E Hf).
Qed.

Lemma stat_failure_leaves_media_only_witness :
  exists duration f',
    process_file Sample.statless "/data/c.txt" (worker_frame 0)
    = (Ok (Some [], duration, []), f').
Proof.
  assert (K : known_type Sample.statless "/data/c.txt" "text/plain")
    by (split; [reflexivity | discriminate]).
  destruct (stat_failure_leaves_media_only
              Sample.statless "/data/c.txt" "text/plain"
              (OSError "No such file or directory") (worker_frame 0)
              eq_refl K eq_refl) as (du & f' & E & _).
  exists du, f'. exact E.
Defined.

(** ** A batch the store took and the loop counted as failed *)

Section Unreported.

Variable all_files : list string.



End Unreported.



(** ** The attributes read from [mdls] *)

Lemma isspace_drop c r : Str.isspace c = true -> drop_space (c ++ r) = Some r.
Proof.
  unfold Str.isspace. intros H. apply existsb_exists in H as (t & Hin & E).
  apply String.eqb_eq in E. subst t.
  cbv [Str.spaces Str.bytes map string_of_list_ascii] in Hin.
  cbn [In] in Hin.
  repeat (destruct Hin as [<- | Hin];
          [destruct r as [|x [|y [|z r]]]; vm_compute; reflexivity|]).
  contradiction.
Qed.

Lemma drop_space_some s r :
  drop_space s = Some r -> exists c, Str.isspace c = true /\ s = c ++ r.
Proof.
  destruct s as [|a [|b [|c s3]]]; cbn [drop_space]; try discriminate.
  - destruct (Str.isspace (String a "")) eqn:E1; [|discriminate].
    intros H; injection H as <-. now exists (String a "").
  - destruct (Str.isspace (String a "")) eqn:E1.
    { intros H; injection H as <-. now exists (String a ""). }
    destruct (Str.isspace (String a (String b ""))) eqn:E2; [|discriminate].
    intros H; injection H as <-. now exists (String a (String b "")).
  - destruct (Str.isspace (String a "")) eqn:E1.
    { intros H; injection H as <-. now exists (String a ""). }
    destruct (Str.isspace (String a (String b ""))) eqn:E2.
    { intros H; injection H as <-. now exists (String a (String b "")). }
    destruct (Str.isspace (String a (String b (String c "")))) eqn:E3;
      [|discriminate].
    intros H; injection H as <-.
    now exists (String a (String b (String c ""))).
Qed.

Lemma drop_space_none s : drop_space s = None <-> no_leading_space s.
Proof.
  split.
  - intros H c r Hc ->. rewrite (isspace_drop c r Hc) in H. discriminate.
  - intros H. destruct (drop_space s) as [r|] eqn:E; [|reflexivity].
    destruct (drop_space_some s r E) as (c & Hc & ->).
    now contradiction (H c r Hc).
Qed.

Lemma lstrip_eq s :
  Str.lstrip s = match drop_space s with
                 | Some r => Str.lstrip r
                 | None => s
                 end.
Proof.
  destruct s as [|a [|b [|c s3]]]; cbn [Str.lstrip drop_space];
    try reflexivity.
  - now destruct (Str.isspace (String a "")).
  - destruct (Str.isspace (String a "")); [reflexivity|].
    now destruct (Str.isspace (String a (String b ""))).
  - destruct (Str.isspace (String a "")); [reflexivity|].
    destruct (Str.isspace (String a (String b ""))); [reflexivity|].
    now destruct (Str.isspace (String a (String b (String c "")))).
Qed.

Lemma length_append a b :
  String.length (a ++ b) = (String.length a + String.length b)%nat.
Proof. induction a as [|x a IH]; cbn; [reflexivity | now rewrite IH]. Qed.

Lemma lstrip_no_leading s : no_leading_space (Str.lstrip s).
Proof.
  remember (String.length s) as n eqn:Hn.
  revert s Hn. induction n as [n IH] using lt_wf_ind. intros s ->.
  rewrite lstrip_eq. destruct (drop_space s) as [r|] eqn:E.
  - destruct (drop_space_some s r E) as (c & Hc & ->).
    apply (IH (String.length r)); [| reflexivity].
    rewrite length_append. destruct c; [discriminate Hc | cbn; lia].
  - now apply drop_space_none.
Qed.

Lemma lstrip_fixed s : no_leading_space s -> Str.lstrip s = s.
Proof.
  intros H. apply drop_space_none in H. now rewrite lstrip_eq, H.
Qed.

Lemma rstrip_cons c s :
  Str.rstrip (String c s) =
  if Str.isspace (String c (Str.rstrip s)) then EmptyString
  else String c (Str.rstrip s).
Proof. reflexivity. Qed.

Lemma rstrip_idempotent s : Str.rstrip (Str.rstrip s) = Str.rstrip s.
Proof.
  induction s as [|c s IH]; [reflexivity|].
  rewrite rstrip_cons.
  destruct (Str.isspace (String c (Str.rstrip s))) eqn:E; [reflexivity|].
  now rewrite rstrip_cons, IH, E.
Qed.

(** [rstrip] only cuts at the end. *)
Lemma rstrip_prefix s : exists t, s = Str.rstrip s ++ t.
Proof.
  induction s as [|c s [t IH]]; [now exists ""|].
  rewrite rstrip_cons.
  destruct (Str.isspace (String c (Str.rstrip s))).
  - now exists (String c s).
  - exists t. cbn. now rewrite <- IH.
Qed.

Lemma rstrip_no_leading s :
  no_leading_space s -> no_leading_space (Str.rstrip s).
Proof.
  intros H c r Hc E. destruct (rstrip_prefix s) as [t Ht].
  apply (H c (r ++ t) Hc). now rewrite Ht, E, append_assoc.
Qed.

Lemma rstrip_no_trailing s : no_trailing_space (Str.rstrip s).
Proof.
  induction s as [|x s IH]; intros c r Hc.
  - cbn. destruct r; [| discriminate]. cbn. intros <-. discriminate Hc.
  - rewrite rstrip_cons.
    destruct (Str.isspace (String x (Str.rstrip s))) eqn:E.
    + destruct r; [| discriminate]. cbn. intros <-. discriminate Hc.
    + destruct r as [|y r]; cbn.
      * intros <-. congruence.
      * intros H. injection H as _ H. exact (IH c r Hc H).
Qed.

Lemma strip_stripped s : stripped (Str.strip s).
Proof.
  split.
  - apply rstrip_no_leading, lstrip_no_leading.
  - apply rstrip_no_trailing.
Qed.

Lemma strip_idempotent s : Str.strip (Str.strip s) = Str.strip s.
Proof.
  unfold Str.strip.
  rewrite (lstrip_fixed (Str.rstrip (Str.lstrip s))).
  - apply rstrip_idempotent.
  - apply rstrip_no_leading, lstrip_no_leading.
Qed.

Lemma dict_get_set_same {V} k (v : V) d :
  dict_get k (dict_set k v d) = Some v.
Proof.
  induction d as [|[k' v'] d IH]; cbn.
  - now rewrite String.eqb_refl.
  - destruct (String.eqb k k') eqn:E; cbn; rewrite ?String.eqb_refl, ?E; auto.
Qed.

Lemma dict_get_set_other {V} k k' (v : V) d :
  k' <> k -> dict_get k' (dict_set k v d) = dict_get k' d.
Proof.
  intros Hne. induction d as [|[k0 v0] d IH]; cbn.
  - apply String.eqb_neq in Hne. now rewrite Hne.
  - destruct (String.eqb k k0) eqn:E; cbn.
    + apply String.eqb_eq in E. subst k0.
      apply String.eqb_neq in Hne. now rewrite Hne.
    + now rewrite IH.
Qed.

Lemma dict_set_in {V} k (v : V) d k0 v0 :
  In (k0, v0) (dict_set k v d) -> (k0, v0) = (k, v) \/ In (k0, v0) d.
Proof.
  induction d as [|[k' v'] d IH]; cbn.
  - intros [H | []]. now left.
  - destruct (String.eqb k k'); cbn.
    + intros [H | H]; auto.
    + intros [H | H]; auto. destruct (IH H); auto.
Qed.

Lemma dict_set_keys {V} k (v : V) d :
  NoDup (keys d) -> NoDup (keys (dict_set k v d)) /\
  forall k0, In k0 (keys (dict_set k v d)) -> k0 = k \/ In k0 (keys d).
Proof.
  unfold keys. induction d as [|[k' v'] d IH]; cbn; intros Hnd.
  - split; [repeat constructor; auto | intros k0 [H | []]; auto].
  - inversion Hnd as [|? ? Hnot Hnd']; subst.
    destruct (String.eqb k k') eqn:E; cbn.
    + apply String.eqb_eq in E. subst k'.
      split; [now constructor | intros k0 [H | H]; auto].
    + destruct (IH Hnd') as [I1 I2]. split.
      * constructor; [| exact I1]. intros Hin.
        destruct (I2 k' Hin) as [-> | H]; [| contradiction].
        now rewrite String.eqb_refl in E.
      * intros k0 [H | H]; auto. destruct (I2 k0 H); auto.
Qed.

Lemma split_eq_none s :
  Str.split_eq s = None <-> Str.contains_char "="%char s = false.
Proof.
  induction s as [|c s IH]; cbn [Str.split_eq Str.contains_char]; [tauto|].
  rewrite (Ascii.eqb_sym "="%char c).
  destruct (Ascii.eqb c "="%char); cbn [orb]; [split; discriminate|].
  destruct (Str.split_eq s) as [[k v]|]; [| tauto].
  split; [discriminate|]. intros H. apply IH in H. discriminate.
Qed.

Lemma split_eq_some s k v :
  Str.split_eq s = Some (k, v) ->
  s = k ++ String "="%char v /\ Str.contains_char "="%char k = false.
Proof.
  revert k. induction s as [|c s IH]; intros k; cbn [Str.split_eq];
    [discriminate|].
  destruct (Ascii.eqb c "="%char) eqn:E.
  - intros H. injection H as <- <-. apply Ascii.eqb_eq in E. subst c.
    now split.
  - destruct (Str.split_eq s) as [[k' v']|]; [| discriminate].
    intros H. injection H as <- <-.
    destruct (IH k' eq_refl) as [-> Hk]. split; [reflexivity|].
    cbn [Str.contains_char]. rewrite Ascii.eqb_sym, E. exact Hk.
Qed.

Lemma split_eq_app k v :
  Str.contains_char "="%char k = false ->
  Str.split_eq (k ++ String "="%char v) = Some (k, v).
Proof.
  induction k as [|c k IH];
    cbn [append Str.split_eq Str.contains_char].
  - now rewrite Ascii.eqb_refl.
  - intros H. apply orb_false_iff in H as [Hc Hk].
    rewrite Ascii.eqb_sym, Hc, (IH Hk). reflexivity.
Qed.

Lemma split_lines_no_newline s :
  Str.contains_char "010"%char s = false -> Str.split_lines s = [s].
Proof.
  induction s as [|c s IH]; cbn [Str.split_lines Str.contains_char];
    [reflexivity|].
  intros H. apply orb_false_iff in H as [Hc Hs].
  rewrite Ascii.eqb_sym, Hc, (IH Hs). reflexivity.
Qed.

Lemma split_lines_app a b :
  Str.split_lines (a ++ String "010"%char b) =
  (Str.split_lines a ++ Str.split_lines b)%list.
Proof.
  induction a as [|c a IH]; cbn [append Str.split_lines].
  - now rewrite Ascii.eqb_refl.
  - rewrite IH. destruct (Ascii.eqb c "010"%char); [reflexivity|].
    destruct (Str.split_lines a) as [|h t] eqn:E; [| reflexivity].
    destruct a as [|x a]; cbn [Str.split_lines] in E; [discriminate|].
    destruct (Ascii.eqb x "010"%char); [discriminate|].
    destruct (Str.split_lines a); discriminate.
Qed.

Lemma split_lines_contains c s :
  Str.contains_char c s = false ->
  Forall (fun l => Str.contains_char c l = false) (Str.split_lines s).
Proof.
  induction s as [|d s IH]; cbn [Str.split_lines Str.contains_char].
  - repeat constructor.
  - intros H. apply orb_false_iff in H as [Hd Hs]. specialize (IH Hs).
    destruct (Ascii.eqb d "010"%char).
    + constructor; [reflexivity | exact IH].
    + destruct (Str.split_lines s) as [|h t].
      * repeat constructor. cbn [Str.contains_char]. now rewrite Hd.
      * inversion IH; subst. constructor; [| assumption].
        cbn [Str.contains_char]. rewrite Hd. assumption.
Qed.

(** One turn of the loop over the lines of [mdls] output. *)
Lemma parse_mdls_step acc line :
  fold_left
    (fun attrs l =>
       match Str.split_eq l with
       | Some (key, value) =>
           dict_set (Str.strip key) (PStr (Str.strip value)) attrs
       | None => attrs
       end) [line] acc =
  match Str.split_eq line with
  | Some (key, value) => dict_set (Str.strip key) (PStr (Str.strip value)) acc
  | None => acc
  end.
Proof. reflexivity. Qed.

(** X9. The attributes read from the output of [mdls]: no key occurs
    twice; every key and every value is stripped, beginning and ending
    with no white-space character (of ASCII or beyond), so that stripping
    it again changes nothing; every value is a string; and an output
    without ['='] gives no attribute at all. *)
Theorem parse_mdls_well_formed :
  forall out : string,
    NoDup (keys (parse_mdls out)) /\
    (forall k v,
        In (k, v) (parse_mdls out) ->
        stripped k /\ Str.strip k = k /\
        exists s, v = PStr s /\ stripped s /\ Str.strip s = s) /\
    (Str.contains_char "="%char out = false -> parse_mdls out = []).
Proof.
  intros out. unfold parse_mdls.
  set (step := fun attrs l =>
                 match Str.split_eq l with
                 | Some (key, value) =>
                     dict_set (Str.strip key) (PStr (Str.strip value)) attrs
                 | None => attrs
                 end).
  set (good := fun (k : string) (v : pyval) =>
                 stripped k /\ Str.strip k = k /\
                 exists s, v = PStr s /\ stripped s /\ Str.strip s = s).
  assert (G : forall lines acc,
             NoDup (keys acc) ->
             (forall k v, In (k, v) acc -> good k v) ->
             NoDup (keys (fold_left step lines acc)) /\
             (forall k v, In (k, v) (fold_left step lines acc) -> good k v)).
  { induction lines as [|l lines IH]; intros acc Hn Hs; [now split|].
    cbn [fold_left]. apply IH.
    - unfold step. destruct (Str.split_eq l) as [[k v]|]; [| exact Hn].
      now apply dict_set_keys.
    - intros k v Hin. unfold step in Hin.
      destruct (Str.split_eq l) as [[k' v']|]; [| now apply Hs].
      apply dict_set_in in Hin as [E | Hin]; [| now apply Hs].
      injection E as -> ->.
      split; [apply strip_stripped|]. split; [apply strip_idempotent|].
      eexists. split; [reflexivity|].
      split; [apply strip_stripped | apply strip_idempotent]. }
  destruct (G (Str.split_lines out) []) as [G1 G2];
    [constructor | intros k v [] |].
  split; [exact G1|]. split; [exact G2|].
  intros H. apply split_lines_contains in H. clear G G1 G2.
  induction H as [|l lines Hl _ IH]; [reflexivity|].
  cbn [fold_left].
  assert (E : step [] l = [])
    by (unfold step; apply split_eq_none in Hl; now rewrite Hl).
  rewrite E. exact IH.
Qed.

(** X10. The last line for a key decides its value. When the output of
    [mdls] ends in a line [key=value], the attribute under the stripped key
    is the stripped value, whatever the earlier lines held, the value being
    everything after the first ['='] of the line; the other attributes
    are those of the earlier lines. *)
Theorem parse_mdls_last_line_wins :
  forall (out key value : string),
    Str.contains_char "="%char key = false ->
    Str.contains_char "010"%char key = false ->
    Str.contains_char "010"%char value = false ->
    let out' := out ++ String "010"%char (key ++ String "="%char value) in
    dict_get (Str.strip key) (parse_mdls out') = Some (PStr (Str.strip value)) /\
    forall k, k <> Str.strip key ->
              dict_get k (parse_mdls out') = dict_get k (parse_mdls out).
Proof.
  intros out key value Hk Hnk Hnv out'.
  assert (L : Str.split_lines (key ++ String "="%char value)
              = [key ++ String "="%char value]).
  { apply split_lines_no_newline. rewrite contains_char_app. cbn.
    now rewrite Hnk, Hnv. }
  unfold out', parse_mdls.
  rewrite split_lines_app, L, fold_left_app, parse_mdls_step,
    (split_eq_app key value Hk).
  split.
  - apply dict_get_set_same.
  - intros k Hne. now apply dict_get_set_other.
Qed.

(** The value ends in a no-break space (U+00A0, bytes 194 160). *)
Lemma parse_mdls_last_line_wins_witness :
  dict_get "kMDItemKind"
    (parse_mdls
       ("kMDItemKind = old" ++
        String "010"%char
          ("kMDItemKind " ++
           String "="%char
             (" a=b" ++ String "194"%char (String "160"%char "")))))
  = Some (PStr "a=b").
Proof.
  exact (proj1 (parse_mdls_last_line_wins
                  "kMDItemKind = old" "kMDItemKind "
                  (" a=b" ++ String "194"%char (String "160"%char ""))
                  eq_refl eq_refl eq_refl)).
Defined.

(** A value followed by a no-break space, stripped as [str.strip()] does. *)
Example mdls_no_break_space :
  parse_mdls ("k = v" ++ String "194"%char (String "160"%char ""))
  = [("k", PStr "v")].
Proof. reflexivity. Qed.

Lemma parse_mdls_well_formed_witness :
  parse_mdls ("could not find /data/a.jpg" ++ String "010"%char "") = [].
Proof.
  exact (proj2 (proj2 (parse_mdls_well_formed
                         ("could not find /data/a.jpg" ++ String "010"%char "")))
               eq_refl).
Defined.

(** ** What the probes hand back *)

Lemma probed_tick s t : probed s t (tick t s).
Proof. unfold probed, tick. cbn. repeat split. lia. Qed.

(** X11. The four probes never raise and touch nothing but the clock:
    each returns a value and the time its external tool took. The value
    is the empty dictionary when the tool cannot be run or returns a
    non-zero status; when the tool returns 0 it is the tool's output under
    the probe's key for [xattr] and [identify], the parsed attributes for
    [mdls], and for [ffprobe] the decoded JSON, or the empty dictionary
    when the output does not decode. *)
Theorem probes_contain_their_failures :
  forall (w : world) (p : string) (s : frame),
    (exists t s',
        get_mdls_attributes w p s = (Ok (mdls_value w p, t), s') /\
        probed s t s') /\
    (exists t s',
        get_xattr_attributes w p s = (Ok (xattr_value w p, t), s') /\
        probed s t s') /\
    (exists t s',
        get_image_metadata w p s = (Ok (image_value w p, t), s') /\
        probed s t s') /\
    (exists t s',
        get_video_metadata w p s = (Ok (video_value w p, t), s') /\
        probed s t s') /\
    (forall argv decode,
        probe_fails w argv = true -> probe_value w argv decode = PDict []) /\
    (forall argv decode r,
        w_run w argv = Ok r -> returncode r = 0 ->
        probe_value w argv decode =
        match decode (stdout_text r) with Ok v => v | Raise _ => PDict [] end).
Proof.
  intros w p s.
  split; [do 2 eexists; split;
          [apply get_mdls_attributes_eq | apply probed_tick]|].
  split; [do 2 eexists; split;
          [apply get_xattr_attributes_eq | apply probed_tick]|].
  split; [do 2 eexists; split;
          [apply get_image_metadata_eq | apply probed_tick]|].
  split; [do 2 eexists; split;
          [apply get_video_metadata_eq | apply probed_tick]|].
  split; [intros; now apply probe_value_fails|].
  intros argv decode r Hr H0. unfold probe_value. now rewrite Hr, H0.
Qed.

Lemma probes_contain_their_failures_witness :
  probe_value Sample.bare (ffprobe_argv "/data/b.mp4")
              (w_json_loads Sample.bare) = PDict [].
Proof.
  exact (proj1 (proj2 (proj2 (proj2 (proj2
           (probes_contain_their_failures Sample.bare "/data/b.mp4"
                                          (worker_frame 0))))))
           (ffprobe_argv "/data/b.mp4") (w_json_loads Sample.bare) eq_refl).
Defined.

(** ** The final summary *)





(** ** Completion order *)

(** X13. In a run in which nothing fails, the completion order does not
    matter to the outcome: two orders of the same results leave the same
    success, failure and processed counts, and stores that hold the same
    documents, in the two orders of arrival. *)
Theorem outcome_independent_of_completion_order :
  forall (all_files : list string) (a : args) (store : list dict)
         (evs evs' : list event) (fin : oracle),
    Permutation evs evs' ->
    Forall clean evs ->
    smooth fin ->
    (List.length evs <= List.length all_files)%nat ->
    let run := fun l =>
      snd (flush_remaining all_files fin
             (snd (consume all_files l (start_state a store)))) in
    success_count (run evs) = success_count (run evs') /\
    error_count (run evs) = error_count (run evs') /\
    processed_count (run evs) = processed_count (run evs') /\
    Permutation (db_content (run evs)) (db_content (run evs')).
Proof.
  intros all_files a store evs evs' fin Hp Hc Hf Hlen run.
  assert (Hc' : Forall clean evs').
  { rewrite Forall_forall in *. intros ev Hin. apply Hc.
    eapply Permutation_in; [symmetry; exact Hp | exact Hin]. }
  assert (Hlen' : (List.length evs' <= List.length all_files)%nat)
    by (rewrite <- (Permutation_length Hp); exact Hlen).
  destruct (smooth_run all_files a store evs fin Hc Hf Hlen)
    as (D1 & S1 & E1 & P1 & _).
  destruct (smooth_run all_files a store evs' fin Hc' Hf Hlen')
    as (D2 & S2 & E2 & P2 & _).
  fold (run evs) in D1, S1, E1, P1. fold (run evs') in D2, S2, E2, P2.
  assert (Pd : Permutation (documents evs) (documents evs'))
    by (unfold documents; now apply Permutation_flat_map).
  assert (Ld : len (documents evs) = len (documents evs'))
    by (unfold len; now rewrite (Permutation_length Pd)).
  assert (Le : len evs = len evs')
    by (unfold len; now rewrite (Permutation_length Hp)).
  rewrite D1, D2, S1, S2, E1, E2, P1, P2, Ld, Le.
  repeat split. now apply Permutation_app_head.
Qed.

Lemma outcome_independent_of_completion_order_witness :
  let evs := [Completed (Some (Sample.doc_of "/data/a.jpg"), 7, []) Sample.fine;
              Completed (None, 0, []) Sample.fine] in
  let run := fun l =>
    snd (flush_remaining ["/data/a.jpg"; "/data/README"] Sample.fine
           (snd (consume ["/data/a.jpg"; "/data/README"] l
                         (start_state Sample.cli [])))) in
  success_count (run evs) = success_count (run (rev evs)).
Proof.
  intros evs run.
  assert (S : smooth Sample.fine) by (repeat split; discriminate).
  assert (C : Forall clean evs).
  { repeat constructor; try discriminate.
    exists "/data/a.jpg". reflexivity. }
  exact (proj1 (outcome_independent_of_completion_order
                  ["/data/a.jpg"; "/data/README"] Sample.cli [] evs (rev evs)
                  Sample.fine (Permutation_rev evs) C S (le_n 2))).
Defined.
